(** * Eye animation of the three-eyed skull: a shallow embedding of
      [eye_controller.py] and of the constants of [config.py] it reads.

    Python values are modelled as follows.
    - [int] is [Z].
    - [float] is a type [F] with the arithmetic of the class [PyFloat].  Two
      instances are given: [binary64], IEEE-754 double precision as CPython
      uses it (every definition below evaluates on it), and [real], the
      real-number semantics of the same expressions, in which rounding is
      absent.  Statements that hold for every arithmetic are proved for an
      arbitrary instance.
    - an attribute that holds an [int] at some times and a [float] at others
      ([last_saccade_stop], [next_blink_time]) is a [number].
    - an exception is a [Raise] result; the state of the [random] module and
      the text printed so far are threaded through the monad [M].
    - a method that mutates [self] is a function returning the new [self].
    [Eye.render] and [EyeController.render_all], which push pixels to the
    displays and change no attribute, are not part of the model. *)

From Stdlib Require Import ZArith Bool List String Lia.
From Stdlib Require Import Reals Lra Psatz.
From Stdlib Require Import Floats SpecFloat QArith.
Import ListNotations.

#[local] Set Warnings "-inexact-float".

Local Open Scope string_scope.
Local Open Scope list_scope.
Local Open Scope Z_scope.

(** ** Python floats *)

Class PyFloat (F : Type) : Type := {
  of_int : Z -> F;           (* float(n), and the conversion of mixed arithmetic *)
  fneg : F -> F;
  fadd : F -> F -> F;
  fsub : F -> F -> F;
  fmul : F -> F -> F;
  fdiv : F -> F -> F;
  fsqrt : F -> F;
  fltb : F -> F -> bool;     (* a < b *)
  fleb : F -> F -> bool      (* a <= b *)
}.

Declare Scope py_scope.
Delimit Scope py_scope with py.
Notation "- a" := (fneg a) : py_scope.
Notation "a + b" := (fadd a b) : py_scope.
Notation "a - b" := (fsub a b) : py_scope.
Notation "a * b" := (fmul a b) : py_scope.
Notation "a / b" := (fdiv a b) : py_scope.

(** A decimal literal [n/d] of the source text (0.75 is [lit 75 100]): the
    double nearest to the quotient, since the division is correctly rounded. *)
Definition lit {F} `{PyFloat F} (n d : Z) : F := (of_int n / of_int d)%py.

(** IEEE-754 binary64; [of_int] rounds to nearest, ties to even. *)
#[export] Instance binary64 : PyFloat float := {
  of_int z := SF2Prim (binary_normalize prec emax z 0 false);
  fneg := PrimFloat.opp;
  fadd := PrimFloat.add;
  fsub := PrimFloat.sub;
  fmul := PrimFloat.mul;
  fdiv := PrimFloat.div;
  fsqrt := PrimFloat.sqrt;
  fltb := PrimFloat.ltb;
  fleb := PrimFloat.leb
}.

(** The same operations on the real numbers. *)
#[export] Instance real : PyFloat R := {
  of_int := IZR;
  fneg := Ropp;
  fadd := Rplus;
  fsub := Rminus;
  fmul := Rmult;
  fdiv := Rdiv;
  fsqrt := R_sqrt.sqrt;
  fltb a b := if Rlt_dec a b then true else false;
  fleb a b := if Rle_dec a b then true else false
}.

(** ** Exceptions, the [random] module and standard output *)

Inductive exn : Type := ZeroDivisionError | ValueError | KeyError.

Inductive result (A : Type) : Type :=
| Ok (a : A)
| Raise (e : exn).
Arguments Ok {A} a.
Arguments Raise {A} e.

(** What a call can read and change outside the objects it is given: the
    generator of the [random] module, an unbounded tape of raw words with a
    read position, and the lines printed so far. *)
Record World : Type := {
  tape : nat -> Z;
  cursor : nat;
  stdout : list string
}.

Definition M (A : Type) : Type := World -> result (A * World).

Definition ret {A} (a : A) : M A := fun w => Ok (a, w).

Definition bind {A B} (c : M A) (k : A -> M B) : M B :=
  fun w => match c w with
           | Ok (a, w') => k a w'
           | Raise e => Raise e
           end.

Definition raise {A} (e : exn) : M A := fun _ => Raise e.

Definition lift {A} (r : result A) : M A :=
  fun w => match r with Ok a => Ok (a, w) | Raise e => Raise e end.

Notation "x <- c ;; k" := (bind c (fun x => k))
  (at level 61, c at next level, right associativity).

Definition print (line : string) : M unit :=
  fun w => Ok (tt, {| tape := tape w; cursor := cursor w; stdout := stdout w ++ [line] |}).

(** The next raw word of the generator. *)
Definition getrandbits : M Z :=
  fun w => Ok (tape w (cursor w),
               {| tape := tape w; cursor := S (cursor w); stdout := stdout w |}).

(** [random.random()]: a 53-bit integer divided by 2**53. *)
Definition random {F} `{PyFloat F} : M F :=
  k <- getrandbits ;;
  ret (of_int (k mod 2 ^ 53) / of_int (2 ^ 53))%py.

(** [random.uniform(a, b)] is [a + (b - a) * self.random()]. *)
Definition uniform {F} `{PyFloat F} (a b : F) : M F :=
  u <- random ;;
  ret (a + (b - a) * u)%py.

(** [_randbelow(n)], some integer of [0, n). *)
Definition randbelow (n : Z) : M Z :=
  k <- getrandbits ;;
  ret (k mod n).

(** [random.randint(a, b)] is [randrange(a, b + 1)]: [ValueError] on an
    empty range, [a + _randbelow(b - a + 1)] otherwise. *)
Definition randint (a b : Z) : M Z :=
  if b <? a then raise ValueError
  else r <- randbelow (b - a + 1) ;; ret (a + r).

(** [a / b] on two ints.  CPython also raises [OverflowError] when the
    quotient is beyond the range of a float, and rounds the exact quotient
    once; these differ from this definition only for operands of magnitude
    2**53 and above. *)
Definition truediv {F} `{PyFloat F} (a b : Z) : result F :=
  if b =? 0 then Raise ZeroDivisionError else Ok (of_int a / of_int b)%py.

(** [math.sqrt(x)]. *)
Definition math_sqrt {F} `{PyFloat F} (x : F) : result F :=
  if fltb x (of_int 0) then Raise ValueError else Ok (fsqrt x).

(** ** Dicts *)

(** [d.get(key)] and [d.values()] of a dict kept as an association list. *)
Fixpoint dict_get {A} (d : list (string * A)) (key : string) : option A :=
  match d with
  | [] => None
  | (k, v) :: d' => if String.eqb k key then Some v else dict_get d' key
  end.

Definition values {A} (d : list (string * A)) : list A := map snd d.

(** ** config.py *)

Module config.
Definition DISPLAY_SIZE : Z := 240.
Definition EYE_MODES : list (string * string) :=
  [("TRACKING", "tracking"); ("WANDERING", "wandering"); ("REST", "rest")].
(** [EYE_MODES[key]] for a key of the dict. *)
Definition EYE_MODES_item (key : string) : string :=
  match dict_get EYE_MODES key with Some v => v | None => "" end.
Definition DEFAULT_MODE : string := EYE_MODES_item "TRACKING".
Definition SACCADE_MIN_DURATION : Z := 83000.
Definition SACCADE_MAX_DURATION : Z := 166000.
Definition MICROSACCADE_MIN_DURATION : Z := 7000.
Definition MICROSACCADE_MAX_DURATION : Z := 25000.
Definition GAZE_MAX : Z := 3000000.
Definition BLINK_MIN_DURATION : Z := 36000.
Definition BLINK_MAX_DURATION : Z := 72000.
Definition BLINK_INTERVAL_MIN : Z := 4000000.
Definition DISPLAY_PINS : list (string * (Z * Z * Z)) :=
  [("left", (8, 24, 25)); ("right", (7, 23, 22)); ("middle", (5, 6, 13))].
End config.
Import config.

(** ** eye_controller.py *)

(** [class EyeState]: the blink states. *)
Inductive EyeState : Type :=
| NOBLINK
| ENBLINK  (* Eye closing *)
| DEBLINK. (* Eye opening *)

Definition EyeState_eqb (a b : EyeState) : bool :=
  match a, b with
  | NOBLINK, NOBLINK | ENBLINK, ENBLINK | DEBLINK, DEBLINK => true
  | _, _ => false
  end.

(** A display object, known to the eyes only as a handle: its three pins. *)
Record GC9A01A : Type := { cs_pin : Z; dc_pin : Z; rst_pin : Z }.

Section Eyes.
Context {F : Type} {PF : PyFloat F}.
Local Open Scope py_scope.

(** A value that is an [int] or a [float]. *)
Inductive number : Type :=
| Int (n : Z)
| Float (x : F).

(** [a - b], [a + b], [a > b] and [a >= b] where one side is an [int] and the
    other a [number]: integer arithmetic between ints, float arithmetic after
    conversion of the int otherwise. *)
Definition int_sub (a : Z) (b : number) : number :=
  match b with
  | Int n => Int (a - n)%Z
  | Float x => Float (of_int a - x)
  end.

Definition add_int (a : number) (b : Z) : number :=
  match a with
  | Int n => Int (n + b)%Z
  | Float x => Float (x + of_int b)
  end.

Definition gtb_int (a : number) (b : Z) : bool :=
  match a with
  | Int n => (b <? n)%Z
  | Float x => fltb (of_int b) x
  end.

Definition int_geb (a : Z) (b : number) : bool :=
  match b with
  | Int n => (n <=? a)%Z
  | Float x => fleb x (of_int a)
  end.

(** [class Eye]: the attributes set by [__init__], in its order. *)
Record Eye : Type := {
  name : string;
  display : option GC9A01A;
  (* Position *)
  eye_x : F;
  eye_y : F;
  target_x : F;
  target_y : F;
  (* Movement state *)
  in_motion : bool;
  move_start_time : Z;
  move_duration : Z;
  old_x : F;
  old_y : F;
  new_x : F;
  new_y : F;
  (* Blink state *)
  blink_state : EyeState;
  blink_start_time : Z;
  blink_duration : Z;
  blink_factor : F;
  (* Appearance *)
  pupil_factor : F;
  upper_lid_factor : F;
  lower_lid_factor : F;
  (* Last saccade timing *)
  last_saccade_stop : number;
  saccade_interval : Z
}.

(** Attribute assignment, [self.a = v], one setter per attribute assigned to
    after construction. *)
Definition set_eye_x (v : F) (self : Eye) : Eye :=
  {| name := name self; display := display self; eye_x := v; eye_y := eye_y self;
     target_x := target_x self; target_y := target_y self; in_motion := in_motion self;
     move_start_time := move_start_time self; move_duration := move_duration self;
     old_x := old_x self; old_y := old_y self; new_x := new_x self; new_y := new_y self;
     blink_state := blink_state self; blink_start_time := blink_start_time self;
     blink_duration := blink_duration self; blink_factor := blink_factor self;
     pupil_factor := pupil_factor self; upper_lid_factor := upper_lid_factor self;
     lower_lid_factor := lower_lid_factor self; last_saccade_stop := last_saccade_stop self;
     saccade_interval := saccade_interval self |}.
Definition set_eye_y (v : F) (self : Eye) : Eye :=
  {| name := name self; display := display self; eye_x := eye_x self; eye_y := v;
     target_x := target_x self; target_y := target_y self; in_motion := in_motion self;
     move_start_time := move_start_time self; move_duration := move_duration self;
     old_x := old_x self; old_y := old_y self; new_x := new_x self; new_y := new_y self;
     blink_state := blink_state self; blink_start_time := blink_start_time self;
     blink_duration := blink_duration self; blink_factor := blink_factor self;
     pupil_factor := pupil_factor self; upper_lid_factor := upper_lid_factor self;
     lower_lid_factor := lower_lid_factor self; last_saccade_stop := last_saccade_stop self;
     saccade_interval := saccade_interval self |}.
Definition set_in_motion (v : bool) (self : Eye) : Eye :=
  {| name := name self; display := display self; eye_x := eye_x self; eye_y := eye_y self;
     target_x := target_x self; target_y := target_y self; in_motion := v;
     move_start_time := move_start_time self; move_duration := move_duration self;
     old_x := old_x self; old_y := old_y self; new_x := new_x self; new_y := new_y self;
     blink_state := blink_state self; blink_start_time := blink_start_time self;
     blink_duration := blink_duration self; blink_factor := blink_factor self;
     pupil_factor := pupil_factor self; upper_lid_factor := upper_lid_factor self;
     lower_lid_factor := lower_lid_factor self; last_saccade_stop := last_saccade_stop self;
     saccade_interval := saccade_interval self |}.
Definition set_move_start_time (v : Z) (self : Eye) : Eye :=
  {| name := name self; display := display self; eye_x := eye_x self; eye_y := eye_y self;
     target_x := target_x self; target_y := target_y self; in_motion := in_motion self;
     move_start_time := v; move_duration := move_duration self; old_x := old_x self;
     old_y := old_y self; new_x := new_x self; new_y := new_y self;
     blink_state := blink_state self; blink_start_time := blink_start_time self;
     blink_duration := blink_duration self; blink_factor := blink_factor self;
     pupil_factor := pupil_factor self; upper_lid_factor := upper_lid_factor self;
     lower_lid_factor := lower_lid_factor self; last_saccade_stop := last_saccade_stop self;
     saccade_interval := saccade_interval self |}.
Definition set_move_duration (v : Z) (self : Eye) : Eye :=
  {| name := name self; display := display self; eye_x := eye_x self; eye_y := eye_y self;
     target_x := target_x self; target_y := target_y self; in_motion := in_motion self;
     move_start_time := move_start_time self; move_duration := v; old_x := old_x self;
     old_y := old_y self; new_x := new_x self; new_y := new_y self;
     blink_state := blink_state self; blink_start_time := blink_start_time self;
     blink_duration := blink_duration self; blink_factor := blink_factor self;
     pupil_factor := pupil_factor self; upper_lid_factor := upper_lid_factor self;
     lower_lid_factor := lower_lid_factor self; last_saccade_stop := last_saccade_stop self;
     saccade_interval := saccade_interval self |}.
Definition set_old_x (v : F) (self : Eye) : Eye :=
  {| name := name self; display := display self; eye_x := eye_x self; eye_y := eye_y self;
     target_x := target_x self; target_y := target_y self; in_motion := in_motion self;
     move_start_time := move_start_time self; move_duration := move_duration self;
     old_x := v; old_y := old_y self; new_x := new_x self; new_y := new_y self;
     blink_state := blink_state self; blink_start_time := blink_start_time self;
     blink_duration := blink_duration self; blink_factor := blink_factor self;
     pupil_factor := pupil_factor self; upper_lid_factor := upper_lid_factor self;
     lower_lid_factor := lower_lid_factor self; last_saccade_stop := last_saccade_stop self;
     saccade_interval := saccade_interval self |}.
Definition set_old_y (v : F) (self : Eye) : Eye :=
  {| name := name self; display := display self; eye_x := eye_x self; eye_y := eye_y self;
     target_x := target_x self; target_y := target_y self; in_motion := in_motion self;
     move_start_time := move_start_time self; move_duration := move_duration self;
     old_x := old_x self; old_y := v; new_x := new_x self; new_y := new_y self;
     blink_state := blink_state self; blink_start_time := blink_start_time self;
     blink_duration := blink_duration self; blink_factor := blink_factor self;
     pupil_factor := pupil_factor self; upper_lid_factor := upper_lid_factor self;
     lower_lid_factor := lower_lid_factor self; last_saccade_stop := last_saccade_stop self;
     saccade_interval := saccade_interval self |}.
Definition set_new_x (v : F) (self : Eye) : Eye :=
  {| name := name self; display := display self; eye_x := eye_x self; eye_y := eye_y self;
     target_x := target_x self; target_y := target_y self; in_motion := in_motion self;
     move_start_time := move_start_time self; move_duration := move_duration self;
     old_x := old_x self; old_y := old_y self; new_x := v; new_y := new_y self;
     blink_state := blink_state self; blink_start_time := blink_start_time self;
     blink_duration := blink_duration self; blink_factor := blink_factor self;
     pupil_factor := pupil_factor self; upper_lid_factor := upper_lid_factor self;
     lower_lid_factor := lower_lid_factor self; last_saccade_stop := last_saccade_stop self;
     saccade_interval := saccade_interval self |}.
Definition set_new_y (v : F) (self : Eye) : Eye :=
  {| name := name self; display := display self; eye_x := eye_x self; eye_y := eye_y self;
     target_x := target_x self; target_y := target_y self; in_motion := in_motion self;
     move_start_time := move_start_time self; move_duration := move_duration self;
     old_x := old_x self; old_y := old_y self; new_x := new_x self; new_y := v;
     blink_state := blink_state self; blink_start_time := blink_start_time self;
     blink_duration := blink_duration self; blink_factor := blink_factor self;
     pupil_factor := pupil_factor self; upper_lid_factor := upper_lid_factor self;
     lower_lid_factor := lower_lid_factor self; last_saccade_stop := last_saccade_stop self;
     saccade_interval := saccade_interval self |}.
Definition set_blink_state (v : EyeState) (self : Eye) : Eye :=
  {| name := name self; display := display self; eye_x := eye_x self; eye_y := eye_y self;
     target_x := target_x self; target_y := target_y self; in_motion := in_motion self;
     move_start_time := move_start_time self; move_duration := move_duration self;
     old_x := old_x self; old_y := old_y self; new_x := new_x self; new_y := new_y self;
     blink_state := v; blink_start_time := blink_start_time self;
     blink_duration := blink_duration self; blink_factor := blink_factor self;
     pupil_factor := pupil_factor self; upper_lid_factor := upper_lid_factor self;
     lower_lid_factor := lower_lid_factor self; last_saccade_stop := last_saccade_stop self;
     saccade_interval := saccade_interval self |}.
Definition set_blink_start_time (v : Z) (self : Eye) : Eye :=
  {| name := name self; display := display self; eye_x := eye_x self; eye_y := eye_y self;
     target_x := target_x self; target_y := target_y self; in_motion := in_motion self;
     move_start_time := move_start_time self; move_duration := move_duration self;
     old_x := old_x self; old_y := old_y self; new_x := new_x self; new_y := new_y self;
     blink_state := blink_state self; blink_start_time := v;
     blink_duration := blink_duration self; blink_factor := blink_factor self;
     pupil_factor := pupil_factor self; upper_lid_factor := upper_lid_factor self;
     lower_lid_factor := lower_lid_factor self; last_saccade_stop := last_saccade_stop self;
     saccade_interval := saccade_interval self |}.
Definition set_blink_duration (v : Z) (self : Eye) : Eye :=
  {| name := name self; display := display self; eye_x := eye_x self; eye_y := eye_y self;
     target_x := target_x self; target_y := target_y self; in_motion := in_motion self;
     move_start_time := move_start_time self; move_duration := move_duration self;
     old_x := old_x self; old_y := old_y self; new_x := new_x self; new_y := new_y self;
     blink_state := blink_state self; blink_start_time := blink_start_time self;
     blink_duration := v; blink_factor := blink_factor self;
     pupil_factor := pupil_factor self; upper_lid_factor := upper_lid_factor self;
     lower_lid_factor := lower_lid_factor self; last_saccade_stop := last_saccade_stop self;
     saccade_interval := saccade_interval self |}.
Definition set_blink_factor (v : F) (self : Eye) : Eye :=
  {| name := name self; display := display self; eye_x := eye_x self; eye_y := eye_y self;
     target_x := target_x self; target_y := target_y self; in_motion := in_motion self;
     move_start_time := move_start_time self; move_duration := move_duration self;
     old_x := old_x self; old_y := old_y self; new_x := new_x self; new_y := new_y self;
     blink_state := blink_state self; blink_start_time := blink_start_time self;
     blink_duration := blink_duration self; blink_factor := v;
     pupil_factor := pupil_factor self; upper_lid_factor := upper_lid_factor self;
     lower_lid_factor := lower_lid_factor self; last_saccade_stop := last_saccade_stop self;
     saccade_interval := saccade_interval self |}.
Definition set_last_saccade_stop (v : number) (self : Eye) : Eye :=
  {| name := name self; display := display self; eye_x := eye_x self; eye_y := eye_y self;
     target_x := target_x self; target_y := target_y self; in_motion := in_motion self;
     move_start_time := move_start_time self; move_duration := move_duration self;
     old_x := old_x self; old_y := old_y self; new_x := new_x self; new_y := new_y self;
     blink_state := blink_state self; blink_start_time := blink_start_time self;
     blink_duration := blink_duration self; blink_factor := blink_factor self;
     pupil_factor := pupil_factor self; upper_lid_factor := upper_lid_factor self;
     lower_lid_factor := lower_lid_factor self; last_saccade_stop := v;
     saccade_interval := saccade_interval self |}.
Definition set_saccade_interval (v : Z) (self : Eye) : Eye :=
  {| name := name self; display := display self; eye_x := eye_x self; eye_y := eye_y self;
     target_x := target_x self; target_y := target_y self; in_motion := in_motion self;
     move_start_time := move_start_time self; move_duration := move_duration self;
     old_x := old_x self; old_y := old_y self; new_x := new_x self; new_y := new_y self;
     blink_state := blink_state self; blink_start_time := blink_start_time self;
     blink_duration := blink_duration self; blink_factor := blink_factor self;
     pupil_factor := pupil_factor self; upper_lid_factor := upper_lid_factor self;
     lower_lid_factor := lower_lid_factor self; last_saccade_stop := last_saccade_stop self;
     saccade_interval := v |}.

(** [Eye.__init__]; [time_us] is the value of [time.time() * 1000000] there. *)
Definition Eye_init (name : string) (display : option GC9A01A) (time_us : F) : Eye :=
  {| name := name; display := display;
     eye_x := of_int 0; eye_y := of_int 0; target_x := of_int 0; target_y := of_int 0;
     in_motion := false; move_start_time := 0; move_duration := 0;
     old_x := of_int 0; old_y := of_int 0; new_x := of_int 0; new_y := of_int 0;
     blink_state := NOBLINK; blink_start_time := 0; blink_duration := 0;
     blink_factor := of_int 0;
     pupil_factor := lit 5 10; upper_lid_factor := of_int 1; lower_lid_factor := of_int 1;
     last_saccade_stop := Float time_us; saccade_interval := 0 |}.

(** [Eye.update_autonomous]: autonomous wandering. *)
Definition update_autonomous (current_time_us : Z) (self : Eye) : M Eye :=
  let dt := (current_time_us - move_start_time self)%Z in
  if in_motion self then
    if (move_duration self <=? dt)%Z then
      (* Movement complete *)
      let self := set_in_motion false self in
      let self := set_old_x (new_x self) (set_eye_x (new_x self) self) in
      let self := set_old_y (new_y self) (set_eye_y (new_y self) self) in
      (* Set hold duration *)
      let limit := Z.min 1000000 GAZE_MAX in
      d <- randint 35000 limit ;;
      let self := set_move_duration d self in
      self <- (if (saccade_interval self =? 0)%Z then
                 let self := set_last_saccade_stop (Int current_time_us) self in
                 i <- randint (move_duration self) GAZE_MAX ;;
                 ret (set_saccade_interval i self)
               else ret self) ;;
      ret (set_move_start_time current_time_us self)
    else
      (* Interpolate position with easing *)
      e <- lift (truediv dt (move_duration self)) ;;
      let e := of_int 3 * e * e - of_int 2 * e * e * e in
      let self := set_eye_x (old_x self + (new_x self - old_x self) * e) self in
      let self := set_eye_y (old_y self + (new_y self - old_y self) * e) self in
      ret self
  else
    (* Eye stopped, check if time to move *)
    let self := set_eye_x (old_x self) self in
    let self := set_eye_y (old_y self) self in
    if (move_duration self <? dt)%Z then
      self <- (if gtb_int (int_sub current_time_us (last_saccade_stop self))
                          (saccade_interval self) then
                 (* Time for a big saccade *)
                 let r := of_int DISPLAY_SIZE * lit 75 100 in
                 x <- uniform (- r) r ;;
                 let self := set_new_x x self in
                 h <- lift (math_sqrt (r * r - new_x self * new_x self)) ;;
                 y <- uniform (- h) h ;;
                 let self := set_new_y y self in
                 d <- randint SACCADE_MIN_DURATION SACCADE_MAX_DURATION ;;
                 let self := set_move_duration d self in
                 ret (set_saccade_interval 0 self)
               else
                 (* Microsaccade *)
                 let r := of_int DISPLAY_SIZE * lit 7 100 in
                 dx <- uniform (- r) r ;;
                 let self := set_new_x (eye_x self + dx) self in
                 h <- lift (math_sqrt (r * r - dx * dx)) ;;
                 dy <- uniform (- h) h ;;
                 let self := set_new_y (eye_y self + dy) self in
                 d <- randint MICROSACCADE_MIN_DURATION MICROSACCADE_MAX_DURATION ;;
                 ret (set_move_duration d self)) ;;
      let self := set_move_start_time current_time_us self in
      ret (set_in_motion true self)
    else ret self.

(** [Eye.update_tracking]: track a target given in the -1.0 to 1.0 range. *)
Definition update_tracking (target_x target_y : F) (self : Eye) : Eye :=
  let r := of_int DISPLAY_SIZE * lit 9 10 in
  let self := set_eye_x (target_x * r) self in
  set_eye_y (target_y * r) self.

(** [Eye.update_blink]: the blink animation. *)
Definition update_blink (current_time_us : Z) (self : Eye) : M Eye :=
  if negb (EyeState_eqb (blink_state self) NOBLINK) then
    let dt := (current_time_us - blink_start_time self)%Z in
    if (blink_duration self <=? dt)%Z then
      (* State transition *)
      if EyeState_eqb (blink_state self) ENBLINK then
        (* Switch to opening *)
        let self := set_blink_state DEBLINK self in
        let self := set_blink_duration (blink_duration self * 2)%Z self in
        let self := set_blink_start_time current_time_us self in
        ret (set_blink_factor (of_int 1) self)
      else
        (* Blink complete *)
        let self := set_blink_state NOBLINK self in
        ret (set_blink_factor (of_int 0) self)
    else
      (* Calculate blink progress *)
      q <- lift (truediv dt (blink_duration self)) ;;
      let self := set_blink_factor q self in
      if EyeState_eqb (blink_state self) DEBLINK then
        ret (set_blink_factor (of_int 1 - blink_factor self) self)
      else ret self
  else ret self.

(** [Eye.start_blink]: trigger a blink. *)
Definition start_blink (current_time_us duration : Z) (self : Eye) : Eye :=
  if EyeState_eqb (blink_state self) NOBLINK then
    let self := set_blink_state ENBLINK self in
    let self := set_blink_start_time current_time_us self in
    set_blink_duration duration self
  else self.

(** [class EyeController].  [eyes] is the dict of the three eyes in insertion
    order; [display_manager] is the dict of displays it was built from. *)
Record EyeController : Type := {
  display_manager : list (string * GC9A01A);
  mode : string;
  eyes : list (string * Eye);
  last_blink_time : number;
  next_blink_time : number
}.

Definition set_mode_attr (v : string) (self : EyeController) : EyeController :=
  {| display_manager := display_manager self; mode := v; eyes := eyes self;
     last_blink_time := last_blink_time self; next_blink_time := next_blink_time self |}.
Definition set_eyes (v : list (string * Eye)) (self : EyeController) : EyeController :=
  {| display_manager := display_manager self; mode := mode self; eyes := v;
     last_blink_time := last_blink_time self; next_blink_time := next_blink_time self |}.
Definition set_last_blink_time (v : number) (self : EyeController) : EyeController :=
  {| display_manager := display_manager self; mode := mode self; eyes := eyes self;
     last_blink_time := v; next_blink_time := next_blink_time self |}.
Definition set_next_blink_time (v : number) (self : EyeController) : EyeController :=
  {| display_manager := display_manager self; mode := mode self; eyes := eyes self;
     last_blink_time := last_blink_time self; next_blink_time := v |}.

(** [for eye in self.eyes.values(): eye.method(...)]: the method is applied
    to each eye of the dict in turn, in insertion order. *)
Fixpoint for_values (method : Eye -> M Eye) (d : list (string * Eye))
  : M (list (string * Eye)) :=
  match d with
  | [] => ret []
  | (k, eye) :: d' =>
      eye' <- method eye ;;
      d'' <- for_values method d' ;;
      ret ((k, eye') :: d'')
  end.

(** [self.eyes[key].method(...)]: [KeyError] when the key is absent. *)
Fixpoint at_key (key : string) (method : Eye -> M Eye) (d : list (string * Eye))
  : M (list (string * Eye)) :=
  match d with
  | [] => raise KeyError
  | (k, eye) :: d' =>
      if String.eqb k key then
        eye' <- method eye ;; ret ((k, eye') :: d')
      else
        d'' <- at_key key method d' ;; ret ((k, eye) :: d'')
  end.

(** [EyeController.__init__]; the four readings of [time.time() * 1000000],
    one in each [Eye.__init__] and one in the controller, are arguments. *)
Definition EyeController_init (display_manager : list (string * GC9A01A))
    (t_left t_right t_middle t_blink : F) : M EyeController :=
  let eyes :=
    [("left", Eye_init "left" (dict_get display_manager "left") t_left);
     ("right", Eye_init "right" (dict_get display_manager "right") t_right);
     ("middle", Eye_init "middle" (dict_get display_manager "middle") t_middle)] in
  (* Blink timing *)
  let last_blink_time := Float t_blink in
  k <- randint BLINK_INTERVAL_MIN (BLINK_INTERVAL_MIN * 2) ;;
  let self :=
    {| display_manager := display_manager; mode := DEFAULT_MODE; eyes := eyes;
       last_blink_time := last_blink_time;
       next_blink_time := add_int last_blink_time k |} in
  _ <- print ("Eye controller initialized in " ++ mode self ++ " mode")%string ;;
  ret self.

(** [EyeController.set_mode]: returns the controller and the value of the
    call, which is [None] (here [tt]) on both paths. *)
Definition set_mode (mode : string) (self : EyeController) : M (EyeController * unit) :=
  if existsb (String.eqb mode) (values EYE_MODES) then
    let self := set_mode_attr mode self in
    _ <- print ("Eye mode changed to: " ++ mode)%string ;;
    ret (self, tt)
  else
    _ <- print ("Invalid mode: " ++ mode)%string ;;
    ret (self, tt).

(** [EyeController.update] in its three steps; [current_time_us] is the value
    of [int(time.time() * 1000000)] read at its start.  First: handle blinks
    (all eyes). *)
Definition handle_blinks (current_time_us : Z) (self : EyeController) : M EyeController :=
  if int_geb current_time_us (next_blink_time self) then
    duration <- randint BLINK_MIN_DURATION BLINK_MAX_DURATION ;;
    let self :=
      set_eyes (map (fun '(k, eye) => (k, start_blink current_time_us duration eye))
                    (eyes self)) self in
    let self := set_last_blink_time (Int current_time_us) self in
    k <- randint BLINK_INTERVAL_MIN (BLINK_INTERVAL_MIN * 2) ;;
    ret (set_next_blink_time (Int (current_time_us + duration * 3 + k)) self)
  else ret self.

(** Second: update the blink animation of every eye. *)
Definition update_blink_animation (current_time_us : Z) (self : EyeController)
  : M EyeController :=
  es <- for_values (update_blink current_time_us) (eyes self) ;;
  ret (set_eyes es self).

(** Third: update the eye positions based on the mode. *)
Definition update_positions (current_time_us : Z) (face_position : option (F * F))
    (self : EyeController) : M EyeController :=
  if String.eqb (mode self) (EYE_MODES_item "TRACKING") then
    (* Middle eye tracks, left/right wander *)
    es <- match face_position with
          | Some (x, y) =>
              at_key "middle" (fun eye => ret (update_tracking x y eye)) (eyes self)
          | None => at_key "middle" (update_autonomous current_time_us) (eyes self)
          end ;;
    es <- at_key "left" (update_autonomous current_time_us) es ;;
    es <- at_key "right" (update_autonomous current_time_us) es ;;
    ret (set_eyes es self)
  else if String.eqb (mode self) (EYE_MODES_item "WANDERING") then
    (* All eyes wander *)
    es <- for_values (update_autonomous current_time_us) (eyes self) ;;
    ret (set_eyes es self)
  else if String.eqb (mode self) (EYE_MODES_item "REST") then
    (* Eyes closed or minimal movement *)
    es <- for_values (fun eye => ret (set_blink_factor (of_int 1) eye)) (eyes self) ;;
    ret (set_eyes es self)
  else ret self.

Definition update (current_time_us : Z) (face_position : option (F * F))
    (self : EyeController) : M EyeController :=
  self <- handle_blinks current_time_us self ;;
  self <- update_blink_animation current_time_us self ;;
  update_positions current_time_us face_position self.

End Eyes.

Arguments number : clear implicits.
Arguments Eye : clear implicits.
Arguments EyeController : clear implicits.

(** ** The main loop, and the properties the statements are about *)

Section Properties.
Context {F : Type} {PF : PyFloat F}.

(** Consecutive calls of [update], one per clock reading and face position,
    as the main loop makes them. *)
Fixpoint updates (inputs : list (Z * option (F * F))) (self : EyeController F)
  : M (EyeController F) :=
  match inputs with
  | [] => ret self
  | (current_time_us, face_position) :: inputs' =>
      self' <- update current_time_us face_position self ;;
      updates inputs' self'
  end.

(** The eye is stopped and shown where it last settled. *)
Definition at_rest_at_old (e : Eye F) : Prop :=
  in_motion e = false -> eye_x e = old_x e /\ eye_y e = old_y e.

(** The motion state and the rendered position of two eyes agree. *)
Definition same_motion (e e' : Eye F) : Prop :=
  old_x e' = old_x e /\ old_y e' = old_y e /\
  new_x e' = new_x e /\ new_y e' = new_y e /\
  move_start_time e' = move_start_time e /\ move_duration e' = move_duration e /\
  in_motion e' = in_motion e /\
  saccade_interval e' = saccade_interval e /\
  last_saccade_stop e' = last_saccade_stop e /\
  eye_x e' = eye_x e /\ eye_y e' = eye_y e.

(** Two dicts of eyes have the same keys in the same order, and eyes under
    the same key are related. *)
Definition eyes_rel (P : Eye F -> Eye F -> Prop) (d d' : list (string * Eye F)) : Prop :=
  Forall2 (fun p p' => fst p' = fst p /\ P (snd p) (snd p')) d d'.

Definition all_eyes (P : Eye F -> Prop) (d : list (string * Eye F)) : Prop :=
  Forall (fun p => P (snd p)) d.

(** A blink in progress has a duration that can be divided by. *)
Definition blink_ready (e : Eye F) : Prop :=
  blink_state e <> NOBLINK -> blink_duration e <> 0.

(** The scenario of a blink fired at time 0 with duration 50000 on an open
    eye, [update_blink] being called at 25000, 50000, 100000 and 150000;
    [half], [one] and [zero] are the floats 0.5, 1.0 and 0.0. *)
Definition blink_scenario (half one zero : F) : Prop :=
  forall (e : Eye F) (w : World),
    blink_state e = NOBLINK ->
    exists e1 e2 e3 e4 : Eye F,
      update_blink 25000 (start_blink 0 50000 e) w = Ok (e1, w) /\
      blink_state e1 = ENBLINK /\ blink_factor e1 = half /\
      update_blink 50000 e1 w = Ok (e2, w) /\
      blink_state e2 = DEBLINK /\ blink_start_time e2 = 50000 /\
      blink_duration e2 = 100000 /\ blink_factor e2 = one /\
      update_blink 100000 e2 w = Ok (e3, w) /\
      blink_state e3 = DEBLINK /\ blink_factor e3 = half /\
      update_blink 150000 e3 w = Ok (e4, w) /\
      blink_state e4 = NOBLINK /\ blink_factor e4 = zero.

End Properties.

(** The modes [set_mode] accepts. *)
Definition valid_mode (m : string) : Prop :=
  m = "tracking" \/ m = "wandering" \/ m = "rest".

(** The world after one word has been read from the tape. *)
Definition advance (w : World) : World :=
  {| tape := tape w; cursor := S (cursor w); stdout := stdout w |}.

(** The world after a line has been printed. *)
Definition printed (line : string) (w : World) : World :=
  {| tape := tape w; cursor := cursor w; stdout := stdout w ++ [line] |}.

(** The value of a double as a rational, when it is finite. *)
Definition exact_value (f : float) : option Q :=
  match Prim2SF f with
  | S754_zero _ => Some 0%Q
  | S754_finite s m e => Some (inject_Z (if s then Z.neg m else Z.pos m) * 2 ^ e)%Q
  | _ => None
  end.

(** ** Concrete eyes, controllers and generator tapes *)

(** A generator tape. *)
Definition tape0 : World :=
  {| tape := fun n => Z.of_nat n * 1234567891234567 + 99; cursor := 0; stdout := [] |}.

(** A tape whose second word makes [random()] return 0.0. *)
Definition edge_tape : World :=
  {| tape := fun n => match n with O => 1111111101111122 | _ => 0 end;
     cursor := 0; stdout := [] |}.

(** The controller built from the displays of [DISPLAY_PINS], one second
    after the epoch. *)
Definition controller0 {F} `{PyFloat F} : M (EyeController F) :=
  EyeController_init
    (map (fun '(k, (cs, dc, rst)) => (k, {| cs_pin := cs; dc_pin := dc; rst_pin := rst |}))
         DISPLAY_PINS)
    (of_int 1000000) (of_int 1000001) (of_int 1000002) (of_int 1000003).

(** The fresh controller put to rest, in double precision. *)
Definition resting0 : M (EyeController float) :=
  c <- controller0 ;;
  r <- set_mode "rest" c ;;
  ret (fst r).

(** A controller in tracking mode with no eyes. *)
Definition bare_controller : EyeController float :=
  {| display_manager := []; mode := DEFAULT_MODE; eyes := [];
     last_blink_time := Int 0; next_blink_time := Int 0 |}.

(** A moving eye in double precision: a move of 100000 microseconds from
    (0, 0) to (180, -90), started at time 0. *)
Definition moving_eye : Eye float :=
  set_in_motion true
    (set_move_duration 100000
       (set_new_y (-90)%float (set_new_x 180%float (Eye_init "left" None 0%float)))).

(** A stopped eye in double precision whose hold has elapsed at time 1 and
    that has no saccade interval pending. *)
Definition stopped_eye : Eye float :=
  set_last_saccade_stop (Int 0) (Eye_init "left" None 0%float).

(** ** Calls in any order, and further properties of eyes and controllers *)

Section Calls.
Context {F : Type} {PF : PyFloat F}.

(** A call made on the controller by its owner. *)
Inductive call : Type :=
| Update (current_time_us : Z) (face_position : option (F * F))
| SetMode (mode : string).

Fixpoint calls (cs : list call) (self : EyeController F) : M (EyeController F) :=
  match cs with
  | [] => ret self
  | Update current_time_us face_position :: cs' =>
      self' <- update current_time_us face_position self ;;
      calls cs' self'
  | SetMode mode :: cs' =>
      r <- set_mode mode self ;;
      calls cs' (fst r)
  end.

(** The blink attributes of two eyes agree. *)
Definition same_blink (e e' : Eye F) : Prop :=
  blink_state e' = blink_state e /\ blink_start_time e' = blink_start_time e /\
  blink_duration e' = blink_duration e /\ blink_factor e' = blink_factor e.

(** The attributes that are set in [Eye.__init__] only agree. *)
Definition same_fixed (e e' : Eye F) : Prop :=
  name e' = name e /\ display e' = display e /\
  target_x e' = target_x e /\ target_y e' = target_y e /\
  pupil_factor e' = pupil_factor e /\ upper_lid_factor e' = upper_lid_factor e /\
  lower_lid_factor e' = lower_lid_factor e.

(** A move in progress has a positive duration. *)
Definition move_ready (e : Eye F) : Prop :=
  in_motion e = true -> 0 < move_duration e.

(** The eyes are the three that [EyeController.__init__] creates. *)
Definition three_eyes (c : EyeController F) : Prop :=
  map fst (eyes c) = ["left"; "right"; "middle"].

(** The eye is in no blink and in no move of duration zero. *)
Definition eye_ok (e : Eye F) : Prop := blink_ready e /\ move_ready e.

(** The controller has its three eyes, none in a blink or a move of
    duration zero. *)
Definition well_formed (c : EyeController F) : Prop :=
  three_eyes c /\ all_eyes eye_ok (eyes c).

(** On a tick on which no blink is due, an open eye stays open and keeps
    its blink factor, unless rest mode sets it to 1.0. *)
Definition stays_open (e e' : Eye F) : Prop :=
  blink_state e = NOBLINK ->
  blink_state e' = NOBLINK /\
  (blink_factor e' = blink_factor e \/ blink_factor e' = of_int 1).

(** An eye that is closing since [now] for [duration]. *)
Definition closing_since (now duration : Z) (e : Eye F) : Prop :=
  blink_state e = ENBLINK /\ blink_start_time e = now /\ blink_duration e = duration.

(** What [handle_blinks] does at [now] when it fires, and what is left of
    it at the end of the tick: one duration and one interval are drawn, the
    eyes of the controller it returns are those of [c] with
    [start_blink now duration] applied to each (an open eye is closing from
    [now] for that duration, any other eye is the same eye), the next blink
    time is [now + duration * 3 + k], and the rest of [update] runs on that
    controller; when [update] returns, the next blink time is still that
    one and every eye that was open is closing from [now] for that
    duration. *)
Definition blink_fires (now : Z) (c : EyeController F) (w : World) : Prop :=
  exists (duration k : Z) (w1 w2 : World) (c1 : EyeController F),
    randint BLINK_MIN_DURATION BLINK_MAX_DURATION w = Ok (duration, w1) /\
    BLINK_MIN_DURATION <= duration <= BLINK_MAX_DURATION /\
    randint BLINK_INTERVAL_MIN (BLINK_INTERVAL_MIN * 2) w1 = Ok (k, w2) /\
    BLINK_INTERVAL_MIN <= k <= 2 * BLINK_INTERVAL_MIN /\
    handle_blinks now c w = Ok (c1, w2) /\
    eyes c1 = map (fun '(key, eye) => (key, start_blink now duration eye)) (eyes c) /\
    eyes_rel (fun e e1 =>
                (blink_state e = NOBLINK ->
                 blink_state e1 = ENBLINK /\ blink_start_time e1 = now /\
                 blink_duration e1 = duration) /\
                (blink_state e <> NOBLINK -> e1 = e))
             (eyes c) (eyes c1) /\
    next_blink_time c1 = Int (now + duration * 3 + k) /\
    last_blink_time c1 = Int now /\
    mode c1 = mode c /\ display_manager c1 = display_manager c /\
    (forall face : option (F * F),
        update now face c w
        = (c2 <- update_blink_animation now c1 ;; update_positions now face c2) w2) /\
    (forall (face : option (F * F)) (c' : EyeController F) (w' : World),
        update now face c w = Ok (c', w') ->
        next_blink_time c' = Int (now + duration * 3 + k) /\
        eyes_rel (fun e e' =>
                    blink_state e = NOBLINK ->
                    blink_state e' = ENBLINK /\ blink_start_time e' = now /\
                    blink_duration e' = duration)
                 (eyes c) (eyes c')) /\
    (forall e : Eye F,
        blink_state e = NOBLINK ->
        blink_state (start_blink now duration e) = ENBLINK /\
        blink_start_time (start_blink now duration e) = now /\
        blink_duration (start_blink now duration e) = duration) /\
    (forall e : Eye F,
        blink_state e <> NOBLINK -> start_blink now duration e = e).

(** The clock readings of a list of ticks never go back, starting from [t]. *)
Fixpoint clock_from (t : Z) (inputs : list (Z * option (F * F))) : Prop :=
  match inputs with
  | [] => True
  | (now, _) :: inputs' => t <= now /\ clock_from now inputs'
  end.

End Calls.

(** A blink in progress started no later than [t], over the reals. *)
Definition blink_started (t : Z) (e : Eye R) : Prop :=
  blink_state e <> NOBLINK -> blink_start_time e <= t.

(** The blink factor is between 0.0 and 1.0. *)
Definition unit_blink_factor (e : Eye R) : Prop :=
  (0 <= blink_factor e <= 1)%R.

Definition blink_timed (t : Z) (e : Eye R) : Prop :=
  blink_started t e /\ unit_blink_factor e.

(** A controller over the reals, at rest, with one fresh eye. *)
Definition one_eyed : EyeController R :=
  {| display_manager := []; mode := "rest";
     eyes := [("left", Eye_init "left" None 0%R)];
     last_blink_time := Int 0; next_blink_time := Int 0 |}.

(** ** main.py: how [SkullController] changes the mode *)

Module main.
Section Skull.
Context {F : Type} {PF : PyFloat F}.
(** The subsystems this model does not look into. *)
Context {FaceTracker AudioManager LEDController : Type}.

(** [class SkullController], once [initialize_systems] has run. *)
Record SkullController : Type := {
  display_manager : list (string * GC9A01A);
  eye_controller : EyeController F;
  face_tracker : FaceTracker;
  audio_manager : AudioManager;
  led_controller : LEDController;
  (* State management *)
  current_mode : string;
  last_activity_time : F;
  last_mode_check : F;
  face_was_detected : bool;
  last_ambient_sound : F;
  (* Performance tracking *)
  frame_count : Z;
  fps_start_time : F
}.

Definition set_current_mode (v : string) (self : SkullController) : SkullController :=
  {| display_manager := display_manager self; eye_controller := eye_controller self;
     face_tracker := face_tracker self; audio_manager := audio_manager self;
     led_controller := led_controller self; current_mode := v;
     last_activity_time := last_activity_time self; last_mode_check := last_mode_check self;
     face_was_detected := face_was_detected self;
     last_ambient_sound := last_ambient_sound self; frame_count := frame_count self;
     fps_start_time := fps_start_time self |}.
Definition set_eye_controller (v : EyeController F) (self : SkullController)
  : SkullController :=
  {| display_manager := display_manager self; eye_controller := v;
     face_tracker := face_tracker self; audio_manager := audio_manager self;
     led_controller := led_controller self; current_mode := current_mode self;
     last_activity_time := last_activity_time self; last_mode_check := last_mode_check self;
     face_was_detected := face_was_detected self;
     last_ambient_sound := last_ambient_sound self; frame_count := frame_count self;
     fps_start_time := fps_start_time self |}.

(** [SkullController.set_mode]: change operating mode. *)
Definition set_mode (mode : string) (self : SkullController) : M SkullController :=
  if negb (String.eqb mode (current_mode self)) then
    let self := set_current_mode mode self in
    r <- set_mode mode (eye_controller self) ;;
    let self := set_eye_controller (fst r) self in
    _ <- print ("Mode changed to: " ++ mode)%string ;;
    ret self
  else ret self.

(** Successive calls of [set_mode]. *)
Fixpoint set_modes (modes : list string) (self : SkullController) : M SkullController :=
  match modes with
  | [] => ret self
  | mode :: modes' => self' <- set_mode mode self ;; set_modes modes' self'
  end.

(** The skull and its eye controller agree on the mode. *)
Definition in_sync (self : SkullController) : Prop :=
  current_mode self = mode (eye_controller self).

End Skull.
End main.

(** A skull around [bare_controller], its other subsystems left blank. *)
Definition bare_skull : @main.SkullController float unit unit unit :=
  {| main.display_manager := []; main.eye_controller := bare_controller;
     main.face_tracker := tt; main.audio_manager := tt; main.led_controller := tt;
     main.current_mode := DEFAULT_MODE;
     main.last_activity_time := 0%float; main.last_mode_check := 0%float;
     main.face_was_detected := false; main.last_ambient_sound := 0%float;
     main.frame_count := 0; main.fps_start_time := 0%float |}.

(** ** Reasoning about the monad *)

Lemma bind_Ok {A B} (c : M A) (k : A -> M B) (w : World) (r : B * World) :
  bind c k w = Ok r -> exists a w1, c w = Ok (a, w1) /\ k a w1 = Ok r.
Proof.
  unfold bind. destruct (c w) as [[a w1]|e]; [|discriminate].
  intros H. exists a, w1. split; [reflexivity|exact H].
Qed.

Lemma bind_step {A B} (c : M A) (k : A -> M B) (w w1 : World) (a : A) :
  c w = Ok (a, w1) -> bind c k w = k a w1.
Proof. unfold bind. intros ->. reflexivity. Qed.

Lemma ret_Ok {A} (a b : A) (w w1 : World) : ret a w = Ok (b, w1) -> b = a /\ w1 = w.
Proof. unfold ret. intros H. injection H as <- <-. split; reflexivity. Qed.

Lemma Ok_inj {A} (a b : A) (w w1 : World) : Ok (a, w) = Ok (b, w1) -> a = b /\ w = w1.
Proof. intros H. injection H as <- <-. split; reflexivity. Qed.

Ltac inv_bind H :=
  let a := fresh "a" in
  let w := fresh "w" in
  let Ha := fresh "Hstep" in
  apply bind_Ok in H; destruct H as (a & w & Ha & H).

Ltac inv_ret H :=
  apply ret_Ok in H; destruct H as [? ?]; subst.

Lemma randint_Ok (a b : Z) (w : World) :
  a <= b ->
  randint a b w = Ok (a + tape w (cursor w) mod (b - a + 1), advance w).
Proof.
  intros Hab. unfold randint.
  destruct (b <? a) eqn:E; [apply Z.ltb_lt in E; lia|].
  reflexivity.
Qed.

Lemma randint_range (a b : Z) (w w1 : World) (v : Z) :
  randint a b w = Ok (v, w1) -> a <= v <= b /\ w1 = advance w.
Proof.
  unfold randint. destruct (b <? a) eqn:E; [discriminate|].
  apply Z.ltb_ge in E. intros H. cbv [bind randbelow getrandbits ret] in H.
  injection H as <- <-. split; [|reflexivity].
  pose proof (Z.mod_pos_bound (tape w (cursor w)) (b - a + 1)). lia.
Qed.

(** Every integer of a non-empty range is the draw of some tape. *)
Lemma randint_onto (a b v : Z) (w : World) :
  a <= v <= b ->
  randint a b {| tape := fun _ => v - a; cursor := cursor w; stdout := stdout w |}
  = Ok (v, advance {| tape := fun _ => v - a; cursor := cursor w; stdout := stdout w |}).
Proof.
  intros Hv. rewrite randint_Ok by lia. cbn [tape cursor].
  rewrite Z.mod_small by lia. f_equal. f_equal. lia.
Qed.

(** ** [Eye.update_tracking] *)

Section Tracking.
Context {F : Type} {PF : PyFloat F}.

(** Everything but the rendered position is left as it was. *)
Lemma update_tracking_others (tx ty : F) (e : Eye F) :
  let e' := update_tracking tx ty e in
  name e' = name e /\ display e' = display e /\
  target_x e' = target_x e /\ target_y e' = target_y e /\
  in_motion e' = in_motion e /\
  move_start_time e' = move_start_time e /\ move_duration e' = move_duration e /\
  old_x e' = old_x e /\ old_y e' = old_y e /\
  new_x e' = new_x e /\ new_y e' = new_y e /\
  blink_state e' = blink_state e /\ blink_start_time e' = blink_start_time e /\
  blink_duration e' = blink_duration e /\ blink_factor e' = blink_factor e /\
  pupil_factor e' = pupil_factor e /\ upper_lid_factor e' = upper_lid_factor e /\
  lower_lid_factor e' = lower_lid_factor e /\
  last_saccade_stop e' = last_saccade_stop e /\ saccade_interval e' = saccade_interval e.
Proof. cbn. repeat split. Qed.

Lemma update_tracking_eye (tx ty : F) (e : Eye F) :
  eye_x (update_tracking tx ty e) = (tx * (of_int DISPLAY_SIZE * lit 9 10))%py /\
  eye_y (update_tracking tx ty e) = (ty * (of_int DISPLAY_SIZE * lit 9 10))%py.
Proof. split; reflexivity. Qed.

End Tracking.

(** C10: [update_tracking] assigns [eye_x] and [eye_y] and nothing else: the
    old and new positions, the moving flag, the start time and duration of
    the move, the saccade interval, the last saccade stop, every blink
    attribute and the remaining attributes of the eye keep their values, so
    the tracked position never reaches the motion state. *)
Theorem update_tracking_frame :
  forall (F : Type) (PF : PyFloat F) (tx ty : F) (e : Eye F),
    let e' := update_tracking tx ty e in
    (name e' = name e /\ display e' = display e /\
     target_x e' = target_x e /\ target_y e' = target_y e /\
     pupil_factor e' = pupil_factor e /\ upper_lid_factor e' = upper_lid_factor e /\
     lower_lid_factor e' = lower_lid_factor e) /\
    (old_x e' = old_x e /\ old_y e' = old_y e /\
     new_x e' = new_x e /\ new_y e' = new_y e /\
     in_motion e' = in_motion e /\
     move_start_time e' = move_start_time e /\ move_duration e' = move_duration e /\
     saccade_interval e' = saccade_interval e /\
     last_saccade_stop e' = last_saccade_stop e) /\
    (blink_state e' = blink_state e /\ blink_start_time e' = blink_start_time e /\
     blink_duration e' = blink_duration e /\ blink_factor e' = blink_factor e) /\
    e' = set_eye_y (eye_y e') (set_eye_x (eye_x e') e).
Proof.
  intros F PF tx ty e e'.
  destruct (update_tracking_others tx ty e) as
    (?&?&?&?&?&?&?&?&?&?&?&?&?&?&?&?&?&?&?&?).
  repeat split; assumption || reflexivity.
Qed.

(** ** The dict of eyes *)

Section Dict.
Context {F : Type} {PF : PyFloat F}.

Lemma at_key_same (key : string) (method : Eye F -> M (Eye F)) (d d' : list (string * Eye F))
    (w w' : World) :
  at_key key method d w = Ok (d', w') ->
  exists e e', dict_get d key = Some e /\ method e w = Ok (e', w') /\
               dict_get d' key = Some e'.
Proof.
  revert d' w'. induction d as [|[k e] d IH]; intros d' w' H; cbn in H.
  - discriminate.
  - cbn [dict_get]. destruct (String.eqb k key) eqn:E.
    + inv_bind H. inv_ret H. exists e, a. cbn [dict_get]. rewrite E. auto.
    + inv_bind H. inv_ret H. destruct (IH _ _ Hstep) as (e1 & e2 & H1 & H2 & H3).
      exists e1, e2. cbn [dict_get]. rewrite E. auto.
Qed.

Lemma at_key_other (key key' : string) (method : Eye F -> M (Eye F))
    (d d' : list (string * Eye F)) (w w' : World) :
  at_key key method d w = Ok (d', w') -> String.eqb key' key = false ->
  dict_get d' key' = dict_get d key'.
Proof.
  intros H Hne. revert d' w' H. induction d as [|[k e] d IH]; intros d' w' H; cbn in H.
  - discriminate.
  - destruct (String.eqb k key) eqn:E.
    + inv_bind H. inv_ret H. cbn [dict_get].
      apply String.eqb_eq in E. subst k. rewrite String.eqb_sym, Hne. reflexivity.
    + inv_bind H. inv_ret H. cbn [dict_get]. rewrite (IH _ _ Hstep). reflexivity.
Qed.

Lemma handle_blinks_mode (now : Z) (c c' : EyeController F) (w w' : World) :
  handle_blinks now c w = Ok (c', w') -> mode c' = mode c.
Proof.
  unfold handle_blinks. destruct (int_geb now (next_blink_time c)); intros H.
  - inv_bind H. inv_bind H. inv_ret H. reflexivity.
  - inv_ret H. reflexivity.
Qed.

Lemma update_blink_animation_mode (now : Z) (c c' : EyeController F) (w w' : World) :
  update_blink_animation now c w = Ok (c', w') -> mode c' = mode c.
Proof.
  unfold update_blink_animation. intros H. inv_bind H. inv_ret H. reflexivity.
Qed.

(** A tick in tracking mode with a face in view leaves the middle eye where
    [update_tracking] put it. *)
Lemma tracking_tick (now : Z) (tx ty : F) (c c' : EyeController F) (w w' : World) :
  mode c = EYE_MODES_item "TRACKING" ->
  update now (Some (tx, ty)) c w = Ok (c', w') ->
  exists e, dict_get (eyes c') "middle" = Some e /\
            eye_x e = (tx * (of_int DISPLAY_SIZE * lit 9 10))%py /\
            eye_y e = (ty * (of_int DISPLAY_SIZE * lit 9 10))%py.
Proof.
  intros Hm H. unfold update in H.
  inv_bind H. rename a into c1. inv_bind H. rename a into c2.
  assert (Hm2 : mode c2 = EYE_MODES_item "TRACKING").
  { rewrite (update_blink_animation_mode _ _ _ _ _ Hstep0).
    rewrite (handle_blinks_mode _ _ _ _ _ Hstep). exact Hm. }
  unfold update_positions in H. rewrite Hm2, String.eqb_refl in H.
  inv_bind H. rename a into es1. inv_bind H. rename a into es2.
  inv_bind H. rename a into es3. inv_ret H. cbn [eyes set_eyes].
  destruct (at_key_same _ _ _ _ _ _ Hstep1) as (e & e' & _ & He & Hget).
  inv_ret He.
  exists (update_tracking tx ty e). split; [|apply update_tracking_eye].
  rewrite (at_key_other _ "middle" _ _ _ _ _ Hstep3) by reflexivity.
  rewrite (at_key_other _ "middle" _ _ _ _ _ Hstep2) by reflexivity.
  exact Hget.
Qed.

End Dict.

(** C1: [update_tracking tx ty] puts the rendered position at the target
    scaled by 0.9 times the display radius (the constant [DISPLAY_SIZE]) at
    once, with no interpolation: in every arithmetic the position is
    [t * (DISPLAY_SIZE * 0.9)] on each axis; over the reals that is
    [t * 0.9 * DISPLAY_SIZE]; in double precision it is
    [t * (0.9 * DISPLAY_SIZE)], and the target (0.5, -0.5) gives exactly
    (0.45 * DISPLAY_SIZE, -0.45 * DISPLAY_SIZE) = (108, -108); and after a
    controller tick in tracking mode that carries a target the middle
    (primary) eye is at that position. *)
Theorem update_tracking_position :
  (forall (F : Type) (PF : PyFloat F) (tx ty : F) (e : Eye F),
      eye_x (update_tracking tx ty e) = (tx * (of_int DISPLAY_SIZE * lit 9 10))%py /\
      eye_y (update_tracking tx ty e) = (ty * (of_int DISPLAY_SIZE * lit 9 10))%py) /\
  (forall (tx ty : R) (e : Eye R),
      eye_x (update_tracking tx ty e) = (tx * 0.9 * IZR DISPLAY_SIZE)%R /\
      eye_y (update_tracking tx ty e) = (ty * 0.9 * IZR DISPLAY_SIZE)%R) /\
  (forall (tx ty : float) (e : Eye float),
      eye_x (update_tracking tx ty e) = (tx * (0.9 * of_int DISPLAY_SIZE))%float /\
      eye_y (update_tracking tx ty e) = (ty * (0.9 * of_int DISPLAY_SIZE))%float) /\
  (forall e : Eye float,
      eye_x (update_tracking 0.5%float (-0.5)%float e) = (0.45 * of_int DISPLAY_SIZE)%float /\
      eye_y (update_tracking 0.5%float (-0.5)%float e) = (-0.45 * of_int DISPLAY_SIZE)%float /\
      eye_x (update_tracking 0.5%float (-0.5)%float e) = 108%float /\
      eye_y (update_tracking 0.5%float (-0.5)%float e) = (-108)%float) /\
  (forall (F : Type) (PF : PyFloat F) (now : Z) (tx ty : F) (c c' : EyeController F)
          (w w' : World),
      mode c = "tracking" ->
      update now (Some (tx, ty)) c w = Ok (c', w') ->
      exists e, dict_get (eyes c') "middle" = Some e /\
                eye_x e = (tx * (of_int DISPLAY_SIZE * lit 9 10))%py /\
                eye_y e = (ty * (of_int DISPLAY_SIZE * lit 9 10))%py).
Proof.
  split; [|split; [|split; [|split]]].
  - intros. apply update_tracking_eye.
  - intros tx ty e. cbn [update_tracking eye_x eye_y set_eye_x set_eye_y].
    unfold lit. cbn [of_int fmul fdiv real]. split; lra.
  - intros tx ty e. split; reflexivity.
  - intros e. cbn. repeat split.
  - intros F PF now tx ty c c' w w' Hm H. eapply tracking_tick; eassumption.
Qed.

(** The tick of C1 on the fresh controller, in double precision. *)
Lemma update_tracking_position_witness :
  exists c c' w w',
    controller0 tape0 = Ok (c, w) /\
    mode c = "tracking" /\
    update 2000000 (Some (0.5, -0.5)%float) c w = Ok (c', w') /\
    exists e, dict_get (eyes c') "middle" = Some e /\
              eye_x e = 108%float /\ eye_y e = (-108)%float.
Proof.
  destruct (controller0 (F := float) tape0) as [[c w]|] eqn:Hc; [|discriminate Hc].
  destruct (update 2000000 (Some (0.5, -0.5)%float) c w) as [[c' w']|] eqn:Hu.
  - exists c, c', w, w'.
    assert (Hm : mode c = "tracking").
    { vm_compute in Hc. injection Hc as <- _. reflexivity. }
    repeat split; try assumption.
    destruct (proj2 (proj2 (proj2 (proj2 update_tracking_position)))
                _ _ _ _ _ _ _ _ _ Hm Hu) as (e & He & Hx & Hy).
    exists e. split; [exact He|]. split; [exact Hx|exact Hy].
  - vm_compute in Hc. injection Hc as <- <-. vm_compute in Hu. discriminate Hu.
Defined.

(** ** The blink state machine of one eye *)

Section Blink.
Context {F : Type} {PF : PyFloat F}.

Lemma start_blink_open (now duration : Z) (e : Eye F) :
  blink_state e = NOBLINK ->
  start_blink now duration e
  = set_blink_duration duration (set_blink_start_time now (set_blink_state ENBLINK e)).
Proof. unfold start_blink. intros ->. reflexivity. Qed.

Lemma start_blink_busy (now duration : Z) (e : Eye F) :
  blink_state e <> NOBLINK -> start_blink now duration e = e.
Proof. unfold start_blink. destruct (blink_state e); [congruence|reflexivity..]. Qed.

(** The five cases of [update_blink]. *)
Lemma update_blink_open (now : Z) (e : Eye F) (w : World) :
  blink_state e = NOBLINK -> update_blink now e w = Ok (e, w).
Proof. unfold update_blink. intros ->. reflexivity. Qed.

Lemma update_blink_closing (now : Z) (e : Eye F) (w : World) :
  blink_state e = ENBLINK ->
  now - blink_start_time e < blink_duration e -> blink_duration e <> 0 ->
  update_blink now e w
  = Ok (set_blink_factor (of_int (now - blink_start_time e) / of_int (blink_duration e))%py e,
        w).
Proof.
  intros Hs Hlt Hnz. unfold update_blink, truediv. rewrite Hs. cbn [EyeState_eqb negb].
  destruct (Z.leb_spec (blink_duration e) (now - blink_start_time e)); [lia|].
  destruct (Z.eqb_spec (blink_duration e) 0); [contradiction|].
  cbn. rewrite Hs. reflexivity.
Qed.

Lemma update_blink_closed (now : Z) (e : Eye F) (w : World) :
  blink_state e = ENBLINK ->
  blink_duration e <= now - blink_start_time e ->
  update_blink now e w
  = Ok (set_blink_factor (of_int 1)
          (set_blink_start_time now
             (set_blink_duration (blink_duration e * 2) (set_blink_state DEBLINK e))),
        w).
Proof.
  unfold update_blink. intros -> Hle. cbn [EyeState_eqb negb].
  destruct (Z.leb_spec (blink_duration e) (now - blink_start_time e)); [|lia].
  reflexivity.
Qed.

Lemma update_blink_opening (now : Z) (e : Eye F) (w : World) :
  blink_state e = DEBLINK ->
  now - blink_start_time e < blink_duration e -> blink_duration e <> 0 ->
  update_blink now e w
  = Ok (set_blink_factor
          (of_int 1 - of_int (now - blink_start_time e) / of_int (blink_duration e))%py e,
        w).
Proof.
  intros Hs Hlt Hnz. unfold update_blink, truediv. rewrite Hs. cbn [EyeState_eqb negb].
  destruct (Z.leb_spec (blink_duration e) (now - blink_start_time e)); [lia|].
  destruct (Z.eqb_spec (blink_duration e) 0); [contradiction|].
  cbn. rewrite Hs. reflexivity.
Qed.

Lemma update_blink_opened (now : Z) (e : Eye F) (w : World) :
  blink_state e = DEBLINK ->
  blink_duration e <= now - blink_start_time e ->
  update_blink now e w = Ok (set_blink_factor (of_int 0) (set_blink_state NOBLINK e), w).
Proof.
  unfold update_blink. intros -> Hle. cbn [EyeState_eqb negb].
  destruct (Z.leb_spec (blink_duration e) (now - blink_start_time e)); [|lia].
  reflexivity.
Qed.

(** The only failure: a division by a zero duration, reached when the eye
    is blinking and the clock is before the start of the blink. *)
Lemma update_blink_total (now : Z) (e : Eye F) (w : World) :
  (blink_state e <> NOBLINK -> blink_duration e <> 0) ->
  exists e', update_blink now e w = Ok (e', w).
Proof.
  intros Hok. destruct (blink_state e) eqn:Hs.
  - eexists. apply update_blink_open. exact Hs.
  - destruct (Z.le_gt_cases (blink_duration e) (now - blink_start_time e)).
    + eexists. apply update_blink_closed; assumption.
    + eexists. apply update_blink_closing; [assumption|lia|apply Hok; discriminate].
  - destruct (Z.le_gt_cases (blink_duration e) (now - blink_start_time e)).
    + eexists. apply update_blink_opened; assumption.
    + eexists. apply update_blink_opening; [assumption|lia|apply Hok; discriminate].
Qed.

End Blink.

(** C2: a blink started at time 0 with duration 50000 has blink factor 0.5
    at 25000; at 50000 the state goes from closing to opening, the duration
    doubles to 100000 and the factor is exactly 1.0; the factor is 0.5 at
    100000 and 0.0 at 150000, where the state is open again.  Both in double
    precision and over the reals. *)
Theorem blink_scenario_values :
  blink_scenario (F := float) 0.5%float 1%float 0%float /\
  blink_scenario (F := R) (1 / 2)%R 1%R 0%R.
Proof.
  split; intros e w He; rewrite (start_blink_open _ _ _ He).
  - eexists. eexists. eexists. eexists.
    split; [apply update_blink_closing; [reflexivity|reflexivity|discriminate]|].
    split; [reflexivity|]. split; [reflexivity|].
    split; [apply update_blink_closed; [reflexivity|discriminate]|].
    split; [reflexivity|]. split; [reflexivity|]. split; [reflexivity|].
    split; [reflexivity|].
    split; [apply update_blink_opening; [reflexivity|reflexivity|discriminate]|].
    split; [reflexivity|]. split; [reflexivity|].
    split; [apply update_blink_opened; [reflexivity|discriminate]|].
    split; reflexivity.
  - eexists. eexists. eexists. eexists.
    split; [apply update_blink_closing; [reflexivity|reflexivity|discriminate]|].
    split; [reflexivity|]. split; [cbn; lra|].
    split; [apply update_blink_closed; [reflexivity|discriminate]|].
    split; [reflexivity|]. split; [reflexivity|]. split; [reflexivity|].
    split; [reflexivity|].
    split; [apply update_blink_opening; [reflexivity|reflexivity|discriminate]|].
    split; [reflexivity|]. split; [cbn; lra|].
    split; [apply update_blink_opened; [reflexivity|discriminate]|].
    split; reflexivity.
Qed.

(** The scenario of C2 on a freshly built eye. *)
Lemma blink_scenario_values_witness :
  exists e1 e2 e3 e4 : Eye float,
    update_blink 25000 (start_blink 0 50000 (Eye_init "left" None 0%float)) tape0
      = Ok (e1, tape0) /\
    blink_state e1 = ENBLINK /\ blink_factor e1 = 0.5%float /\
    update_blink 50000 e1 tape0 = Ok (e2, tape0) /\
    blink_state e2 = DEBLINK /\ blink_start_time e2 = 50000 /\
    blink_duration e2 = 100000 /\ blink_factor e2 = 1%float /\
    update_blink 100000 e2 tape0 = Ok (e3, tape0) /\
    blink_state e3 = DEBLINK /\ blink_factor e3 = 0.5%float /\
    update_blink 150000 e3 tape0 = Ok (e4, tape0) /\
    blink_state e4 = NOBLINK /\ blink_factor e4 = 0%float.
Proof.
  apply (proj1 blink_scenario_values (Eye_init "left" None 0%float) tape0).
  reflexivity.
Defined.

(** ** [Eye.update_autonomous] while the eye is moving *)

Section Moving.
Context {F : Type} {PF : PyFloat F}.
Local Open Scope py_scope.

(** The move is under way: the position is interpolated, nothing is drawn. *)
Lemma update_autonomous_easing (now : Z) (e : Eye F) (w : World) :
  in_motion e = true ->
  (now - move_start_time e < move_duration e)%Z -> move_duration e <> 0%Z ->
  update_autonomous now e w
  = Ok (let q := of_int (now - move_start_time e) / of_int (move_duration e) in
        let s := of_int 3 * q * q - of_int 2 * q * q * q in
        set_eye_y (old_y e + (new_y e - old_y e) * s)
          (set_eye_x (old_x e + (new_x e - old_x e) * s) e),
        w).
Proof.
  intros Hm Hlt Hnz. unfold update_autonomous, truediv. rewrite Hm.
  destruct (Z.leb_spec (move_duration e) (now - move_start_time e)); [lia|].
  destruct (Z.eqb_spec (move_duration e) 0); [contradiction|].
  reflexivity.
Qed.

(** The move is over: the eye snaps to the target and a hold is drawn. *)
Lemma update_autonomous_complete (now : Z) (e : Eye F) (w : World) :
  in_motion e = true ->
  (move_duration e <= now - move_start_time e)%Z ->
  let e1 := set_old_y (new_y e) (set_eye_y (new_y e)
              (set_old_x (new_x e) (set_eye_x (new_x e) (set_in_motion false e)))) in
  let hold := (35000 + tape w (cursor w) mod (Z.min 1000000 GAZE_MAX - 35000 + 1))%Z in
  let e2 := set_move_duration hold e1 in
  update_autonomous now e w
  = if (saccade_interval e =? 0)%Z then
      let w1 := advance w in
      let interval := (hold + tape w1 (cursor w1) mod (GAZE_MAX - hold + 1))%Z in
      Ok (set_move_start_time now
            (set_saccade_interval interval (set_last_saccade_stop (Int now) e2)),
          advance w1)
    else Ok (set_move_start_time now e2, advance w).
Proof.
  intros Hm Hle e1 hold e2. unfold update_autonomous. rewrite Hm.
  destruct (Z.leb_spec (move_duration e) (now - move_start_time e)); [|lia].
  assert (Hhold : (35000 <= hold <= 1000000)%Z).
  { subst hold. unfold GAZE_MAX.
    pose proof (Z.mod_pos_bound (tape w (cursor w)) (Z.min 1000000 3000000 - 35000 + 1)).
    lia. }
  erewrite bind_step by (apply randint_Ok; unfold GAZE_MAX; lia).
  fold hold. cbv beta zeta.
  cbn [saccade_interval move_duration set_move_duration set_old_y set_eye_y set_old_x
       set_eye_x set_in_motion set_last_saccade_stop].
  destruct (saccade_interval e =? 0)%Z.
  - erewrite bind_step; [reflexivity|].
    erewrite bind_step by (apply randint_Ok; unfold GAZE_MAX; lia).
    reflexivity.
  - reflexivity.
Qed.

End Moving.

(** C6: while the eye is moving and [0 <= now - start_time < duration], one
    call of [update_autonomous] returns with the position at
    [old + (new - old) * e'] on each axis, where [e = (now - start_time) /
    duration] and [e' = 3e^2 - 2e^3]: in every arithmetic with the products
    taken as the code takes them, and over the reals in the polynomial form;
    no other attribute changes and nothing is drawn. *)
Theorem update_autonomous_smoothstep :
  (forall (F : Type) (PF : PyFloat F) (now : Z) (e : Eye F) (w : World),
      in_motion e = true ->
      0 <= now - move_start_time e < move_duration e ->
      exists e' : Eye F,
        update_autonomous now e w = Ok (e', w) /\
        (let q := of_int (now - move_start_time e) / of_int (move_duration e) in
         let s := of_int 3 * q * q - of_int 2 * q * q * q in
         eye_x e' = old_x e + (new_x e - old_x e) * s /\
         eye_y e' = old_y e + (new_y e - old_y e) * s)%py /\
        e' = set_eye_y (eye_y e') (set_eye_x (eye_x e') e)) /\
  (forall (now : Z) (e : Eye R) (w : World),
      in_motion e = true ->
      0 <= now - move_start_time e < move_duration e ->
      exists e' : Eye R,
        update_autonomous now e w = Ok (e', w) /\
        (let q := IZR (now - move_start_time e) / IZR (move_duration e) in
         let s := 3 * q ^ 2 - 2 * q ^ 3 in
         eye_x e' = old_x e + (new_x e - old_x e) * s /\
         eye_y e' = old_y e + (new_y e - old_y e) * s)%R).
Proof.
  split.
  - intros F PF now e w Hm Hdt. eexists. split.
    + apply update_autonomous_easing; [exact Hm|lia|lia].
    + cbn. repeat split.
  - intros now e w Hm Hdt. eexists. split.
    + apply update_autonomous_easing; [exact Hm|lia|lia].
    + cbn. split; ring.
Qed.

(** C6 at 50000 on [moving_eye]: the ease is 0.5 and the eye is at (90, -45). *)
Lemma update_autonomous_smoothstep_witness :
  exists e' : Eye float,
    update_autonomous 50000 moving_eye tape0 = Ok (e', tape0) /\
    eye_x e' = 90%float /\ eye_y e' = (-45)%float.
Proof.
  destruct (proj1 update_autonomous_smoothstep float binary64 50000 moving_eye tape0)
    as (e' & Hrun & (Hx & Hy) & _).
  - reflexivity.
  - cbn. lia.
  - exists e'. split; [exact Hrun|]. split; [exact Hx|exact Hy].
Defined.

(** C4: when a moving eye is updated with [now - start_time >= duration] the
    move completes: the position and [old] both take the value of [new] and
    the eye stops moving; the hold duration is a [randint] draw on
    [35000, min(1000000, GAZE_MAX)]; when no saccade interval is pending
    (it is 0) the interval is a [randint] draw on [hold, GAZE_MAX] and the
    time of the stop is recorded, otherwise both are kept; the hold starts
    at [now].  Every value of either range is the draw of some tape. *)
Theorem update_autonomous_completion :
  (forall (F : Type) (PF : PyFloat F) (now : Z) (e : Eye F) (w : World),
      in_motion e = true ->
      move_duration e <= now - move_start_time e ->
      exists (hold : Z) (w1 : World) (e' : Eye F) (w' : World),
        randint 35000 (Z.min 1000000 GAZE_MAX) w = Ok (hold, w1) /\
        35000 <= hold <= Z.min 1000000 GAZE_MAX /\
        update_autonomous now e w = Ok (e', w') /\
        (eye_x e' = new_x e /\ eye_y e' = new_y e /\
         old_x e' = new_x e /\ old_y e' = new_y e /\
         new_x e' = new_x e /\ new_y e' = new_y e) /\
        in_motion e' = false /\
        move_duration e' = hold /\ move_start_time e' = now /\
        (saccade_interval e = 0 ->
         exists interval : Z,
           randint hold GAZE_MAX w1 = Ok (interval, w') /\
           hold <= interval <= GAZE_MAX /\
           saccade_interval e' = interval /\ last_saccade_stop e' = Int now) /\
        (saccade_interval e <> 0 ->
         w' = w1 /\ saccade_interval e' = saccade_interval e /\
         last_saccade_stop e' = last_saccade_stop e)) /\
  (forall hold : Z,
      35000 <= hold <= Z.min 1000000 GAZE_MAX ->
      exists w : World, randint 35000 (Z.min 1000000 GAZE_MAX) w = Ok (hold, advance w)) /\
  (forall hold interval : Z,
      hold <= interval <= GAZE_MAX ->
      exists w : World, randint hold GAZE_MAX w = Ok (interval, advance w)).
Proof.
  split; [|split].
  - intros F PF now e w Hm Hle.
    pose proof (update_autonomous_complete now e w Hm Hle) as Hrun. cbv zeta in Hrun.
    assert (Hdraw : randint 35000 (Z.min 1000000 GAZE_MAX) w
                    = Ok (35000 + tape w (cursor w) mod (Z.min 1000000 GAZE_MAX - 35000 + 1),
                          advance w))
      by (apply randint_Ok; unfold GAZE_MAX; lia).
    destruct (randint_range _ _ _ _ _ Hdraw) as [Hhold _].
    set (hold := 35000 + tape w (cursor w) mod (Z.min 1000000 GAZE_MAX - 35000 + 1)) in *.
    destruct (Z.eqb_spec (saccade_interval e) 0) as [Hz|Hnz].
    + assert (Hdraw2 : randint hold GAZE_MAX (advance w)
                       = Ok (hold + tape (advance w) (cursor (advance w))
                                    mod (GAZE_MAX - hold + 1),
                             advance (advance w)))
        by (apply randint_Ok; unfold GAZE_MAX in *; lia).
      destruct (randint_range _ _ _ _ _ Hdraw2) as [Hint _].
      eexists hold, (advance w), _, _.
      split; [exact Hdraw|]. split; [exact Hhold|]. split; [exact Hrun|].
      split; [repeat split|]. split; [reflexivity|]. split; [reflexivity|].
      split; [reflexivity|]. split.
      * intros _. eexists. split; [exact Hdraw2|]. split; [exact Hint|].
        split; reflexivity.
      * intros Hc. contradiction.
    + eexists hold, (advance w), _, _.
      split; [exact Hdraw|]. split; [exact Hhold|]. split; [exact Hrun|].
      split; [repeat split|]. split; [reflexivity|]. split; [reflexivity|].
      split; [reflexivity|]. split.
      * intros Hc. contradiction.
      * intros _. repeat split.
  - intros hold Hh. eexists. apply (randint_onto _ _ _ tape0 Hh).
  - intros hold interval Hi. eexists. apply (randint_onto _ _ _ tape0 Hi).
Qed.

(** C4 on [moving_eye] at the end of its move, no interval pending. *)
Lemma update_autonomous_completion_witness :
  exists (hold interval : Z) (e' : Eye float) (w' : World),
    35000 <= hold <= 1000000 /\ hold <= interval <= 3000000 /\
    update_autonomous 100000 moving_eye tape0 = Ok (e', w') /\
    eye_x e' = 180%float /\ old_x e' = 180%float /\ in_motion e' = false /\
    move_duration e' = hold /\ saccade_interval e' = interval /\
    last_saccade_stop e' = Int 100000.
Proof.
  destruct (proj1 update_autonomous_completion float binary64 100000 moving_eye tape0)
    as (hold & w1 & e' & w' & _ & Hhold & Hrun & (Hx & _ & Hox & _) & Hm & Hd & _ & Hz & _).
  - reflexivity.
  - cbn. lia.
  - destruct Hz as (interval & _ & Hint & Hsi & Hlss); [reflexivity|].
    exists hold, interval, e', w'.
    repeat split; try assumption; try apply Hhold; apply Hint.
Defined.

(** ** [Eye.update_autonomous] while the eye is stopped *)

Section Stopped.
Context {F : Type} {PF : PyFloat F}.

(** The hold has not elapsed: the eye is kept at [old], nothing is drawn. *)
Lemma update_autonomous_hold (now : Z) (e : Eye F) (w : World) :
  in_motion e = false ->
  now - move_start_time e <= move_duration e ->
  update_autonomous now e w = Ok (set_eye_y (old_y e) (set_eye_x (old_x e) e), w).
Proof.
  intros Hm Hle. unfold update_autonomous. rewrite Hm.
  cbn [move_duration set_eye_x set_eye_y].
  destruct (Z.ltb_spec (move_duration e) (now - move_start_time e)); [lia|].
  reflexivity.
Qed.

(** The hold has elapsed: whatever is drawn, a move starts at [now]. *)
Lemma update_autonomous_start (now : Z) (e e' : Eye F) (w w' : World) :
  in_motion e = false ->
  move_duration e < now - move_start_time e ->
  update_autonomous now e w = Ok (e', w') ->
  in_motion e' = true /\ move_start_time e' = now.
Proof.
  intros Hm Hlt H. unfold update_autonomous in H. rewrite Hm in H.
  cbn [move_duration set_eye_x set_eye_y] in H.
  destruct (Z.ltb_spec (move_duration e) (now - move_start_time e)); [|lia].
  inv_bind H. inv_ret H. split; reflexivity.
Qed.

Lemma update_autonomous_at_rest (now : Z) (e e' : Eye F) (w w' : World) :
  update_autonomous now e w = Ok (e', w') -> at_rest_at_old e'.
Proof.
  intros H Hrest. destruct (in_motion e) eqn:Hm.
  - destruct (Z.le_gt_cases (move_duration e) (now - move_start_time e)) as [Hle|Hgt].
    + rewrite (update_autonomous_complete now e w Hm Hle) in H. cbv zeta in H.
      destruct (saccade_interval e =? 0); apply Ok_inj in H; destruct H as [<- _];
        split; reflexivity.
    + exfalso. unfold update_autonomous in H. rewrite Hm in H.
      destruct (Z.leb_spec (move_duration e) (now - move_start_time e)); [lia|].
      inv_bind H. inv_ret H. cbn in Hrest. congruence.
  - destruct (Z.le_gt_cases (now - move_start_time e) (move_duration e)) as [Hle|Hgt].
    + rewrite (update_autonomous_hold now e w Hm Hle) in H.
      apply Ok_inj in H. destruct H as [<- _]. split; reflexivity.
    + exfalso. destruct (update_autonomous_start now e e' w w' Hm) as [Ht _];
        [lia|exact H|congruence].
Qed.

End Stopped.

(** ** The disk of a saccade, over the reals *)

Section Disk.
Local Open Scope R_scope.

Lemma random_unit (w : World) :
  exists u : R, random (F := R) w = Ok (u, advance w) /\ 0 <= u < 1.
Proof.
  eexists. split; [reflexivity|]. cbn [of_int fdiv real].
  pose proof (Z.mod_pos_bound (tape w (cursor w)) (2 ^ 53) ltac:(lia)) as [Hlo Hhi].
  apply IZR_le in Hlo. apply IZR_lt in Hhi.
  assert (Hp : 0 < IZR (2 ^ 53)) by (apply IZR_lt; lia).
  split.
  - apply Rmult_le_pos; [exact Hlo|]. left. apply Rinv_0_lt_compat. exact Hp.
  - apply Rmult_lt_reg_r with (IZR (2 ^ 53)); [exact Hp|].
    unfold Rdiv. rewrite Rmult_assoc, Rinv_l by lra. lra.
Qed.

Lemma uniform_between (a b : R) (w : World) :
  a <= b ->
  exists v : R, uniform (F := R) a b w = Ok (v, advance w) /\ a <= v <= b.
Proof.
  intros Hab. destruct (random_unit w) as (u & Hu & Hlo & Hhi).
  exists (a + (b - a) * u). split.
  - unfold uniform. rewrite (bind_step _ _ _ _ _ Hu). reflexivity.
  - split; nra.
Qed.

Lemma math_sqrt_Ok (x : R) : 0 <= x -> math_sqrt (F := R) x = Ok (R_sqrt.sqrt x).
Proof.
  intros Hx. unfold math_sqrt. cbn [fltb of_int real fsqrt].
  destruct (Rlt_dec x 0); [lra|reflexivity].
Qed.

(** A point drawn as the saccades draw it lies in the disk of radius [r]. *)
Lemma in_disk (r x y : R) :
  0 <= r -> - r <= x <= r ->
  - R_sqrt.sqrt (r * r - x * x) <= y <= R_sqrt.sqrt (r * r - x * x) ->
  R_sqrt.sqrt (x ^ 2 + y ^ 2) <= r.
Proof.
  intros Hr Hx Hy.
  assert (Hh : 0 <= r * r - x * x) by nra.
  pose proof (sqrt_sqrt _ Hh) as Hsq.
  pose proof (sqrt_pos (r * r - x * x)) as Hpos.
  apply Rle_trans with (R_sqrt.sqrt (r * r)).
  - apply sqrt_le_1_alt. nra.
  - rewrite (sqrt_square r Hr). lra.
Qed.

End Disk.

(** C5, as the code has it: with the float expressions evaluated over the
    reals, whatever the generator yields, a major saccade draws its new
    target inside the disk of radius [0.75 * DISPLAY_SIZE] about the origin,
    and a microsaccade draws a displacement from the old position inside
    the disk of radius [0.07 * DISPLAY_SIZE]; the update that draws them
    returns and starts the move. *)
Theorem saccade_in_disk :
  forall (now : Z) (e : Eye R) (w : World),
    in_motion e = false ->
    move_duration e < now - move_start_time e ->
    exists (e' : Eye R) (w' : World),
      update_autonomous now e w = Ok (e', w') /\
      in_motion e' = true /\ old_x e' = old_x e /\ old_y e' = old_y e /\
      if gtb_int (int_sub now (last_saccade_stop e)) (saccade_interval e)
      then (R_sqrt.sqrt (new_x e' ^ 2 + new_y e' ^ 2) <= 0.75 * IZR DISPLAY_SIZE)%R
      else (R_sqrt.sqrt ((new_x e' - old_x e') ^ 2 + (new_y e' - old_y e') ^ 2)
            <= 0.07 * IZR DISPLAY_SIZE)%R.
Proof.
  intros now e w Hm Hlt. unfold update_autonomous. rewrite Hm.
  cbn [move_duration set_eye_x set_eye_y last_saccade_stop saccade_interval].
  destruct (Z.ltb_spec (move_duration e) (now - move_start_time e)); [|lia].
  destruct (gtb_int _ _).
  - set (r := (of_int DISPLAY_SIZE * lit 75 100)%py).
    assert (Hr : (r = 0.75 * IZR DISPLAY_SIZE)%R)
      by (subst r; unfold lit; cbn [of_int fmul fdiv real]; lra).
    assert (Hr0 : (0 <= r)%R) by (rewrite Hr; unfold DISPLAY_SIZE; lra).
    destruct (uniform_between (- r) r w) as (x & Hx & Hxr); [lra|].
    assert (Hh : (0 <= r * r - x * x)%R) by nra.
    destruct (uniform_between (- R_sqrt.sqrt (r * r - x * x)) (R_sqrt.sqrt (r * r - x * x))
                (advance w))
      as (y & Hy & Hyr); [pose proof (sqrt_pos (r * r - x * x)); lra|].
    eexists. eexists. split.
    + erewrite bind_step; [reflexivity|].
      cbn [fneg real]. rewrite (bind_step _ _ _ _ _ Hx). cbv beta zeta.
      cbn [new_x set_new_x fmul fsub real]. rewrite (math_sqrt_Ok _ Hh).
      erewrite bind_step by reflexivity.
      rewrite (bind_step _ _ _ _ _ Hy). cbv beta zeta.
      erewrite bind_step by (apply randint_Ok; unfold SACCADE_MIN_DURATION,
        SACCADE_MAX_DURATION; lia).
      reflexivity.
    + cbn. split; [reflexivity|]. split; [reflexivity|]. split; [reflexivity|].
      rewrite <- Hr. apply in_disk; assumption.
  - set (r := (of_int DISPLAY_SIZE * lit 7 100)%py).
    assert (Hr : (r = 0.07 * IZR DISPLAY_SIZE)%R)
      by (subst r; unfold lit; cbn [of_int fmul fdiv real]; lra).
    assert (Hr0 : (0 <= r)%R) by (rewrite Hr; unfold DISPLAY_SIZE; lra).
    destruct (uniform_between (- r) r w) as (x & Hx & Hxr); [lra|].
    assert (Hh : (0 <= r * r - x * x)%R) by nra.
    destruct (uniform_between (- R_sqrt.sqrt (r * r - x * x)) (R_sqrt.sqrt (r * r - x * x))
                (advance w))
      as (y & Hy & Hyr); [pose proof (sqrt_pos (r * r - x * x)); lra|].
    eexists. eexists. split.
    + erewrite bind_step; [reflexivity|].
      cbn [fneg real]. rewrite (bind_step _ _ _ _ _ Hx). cbv beta zeta.
      cbn [fmul fsub real]. rewrite (math_sqrt_Ok _ Hh).
      erewrite bind_step by reflexivity.
      rewrite (bind_step _ _ _ _ _ Hy). cbv beta zeta.
      erewrite bind_step by (apply randint_Ok; unfold MICROSACCADE_MIN_DURATION,
        MICROSACCADE_MAX_DURATION; lia).
      reflexivity.
    + cbn. split; [reflexivity|]. split; [reflexivity|]. split; [reflexivity|].
      rewrite <- Hr.
      replace (old_x e + x - old_x e)%R with x by ring.
      replace (old_y e + y - old_y e)%R with y by ring.
      apply in_disk; assumption.
Qed.

(** C5 on a stopped eye whose hold has elapsed: with nothing pending a major
    saccade is drawn, with an interval of ten seconds pending a microsaccade. *)
Lemma saccade_in_disk_witness :
  (exists (e' : Eye R) (w' : World),
      update_autonomous 1 (set_last_saccade_stop (Int 0) (Eye_init "left" None 0%R)) tape0
      = Ok (e', w') /\
      (R_sqrt.sqrt (new_x e' ^ 2 + new_y e' ^ 2) <= 0.75 * IZR DISPLAY_SIZE)%R) /\
  (exists (e' : Eye R) (w' : World),
      update_autonomous 1
        (set_saccade_interval 10000000
           (set_last_saccade_stop (Int 0) (Eye_init "left" None 0%R))) tape0
      = Ok (e', w') /\
      (R_sqrt.sqrt ((new_x e' - old_x e') ^ 2 + (new_y e' - old_y e') ^ 2)
       <= 0.07 * IZR DISPLAY_SIZE)%R).
Proof.
  split.
  - destruct (saccade_in_disk 1 (set_last_saccade_stop (Int 0) (Eye_init "left" None 0%R))
                tape0) as (e' & w' & Hrun & _ & _ & _ & Hdisk).
    + reflexivity.
    + cbn. lia.
    + exists e', w'. split; [exact Hrun|exact Hdisk].
  - destruct (saccade_in_disk 1
                (set_saccade_interval 10000000
                   (set_last_saccade_stop (Int 0) (Eye_init "left" None 0%R)))
                tape0) as (e' & w' & Hrun & _ & _ & _ & Hdisk).
    + reflexivity.
    + cbn. lia.
    + exists e', w'. split; [exact Hrun|exact Hdisk].
Defined.

(** C5 as stated fails in double precision: on [edge_tape] the first draw
    puts [new_x] at -135.59..., the square root of [r * r - new_x * new_x]
    is rounded up, the second draw is 0.0 and puts [new_y] at minus that
    root, and the point lies outside the disk of radius 180 = 0.75 *
    [DISPLAY_SIZE] by rounding error. *)
Lemma saccade_outside_disk :
  exists (e' : Eye float) (w' : World) (r x y : Q),
    update_autonomous 1 stopped_eye edge_tape = Ok (e', w') /\
    new_x e' = (-135.5910794146736)%float /\
    new_y e' = (-118.38521522201866)%float /\
    exact_value (of_int DISPLAY_SIZE * lit 75 100)%py = Some r /\ (r == 180)%Q /\
    exact_value (new_x e') = Some x /\ exact_value (new_y e') = Some y /\
    (r * r < x * x + y * y)%Q.
Proof.
  destruct (update_autonomous 1 stopped_eye edge_tape) as [[e' w']|] eqn:H;
    [|vm_compute in H; discriminate H].
  vm_compute in H. apply Ok_inj in H. destruct H as [<- <-].
  eexists _, _, _, _, _.
  split; [reflexivity|]. split; [reflexivity|]. split; [reflexivity|].
  split; [vm_compute; reflexivity|]. split; [vm_compute; reflexivity|].
  split; [vm_compute; reflexivity|]. split; [vm_compute; reflexivity|].
  vm_compute. reflexivity.
Qed.

(** ** What the blink methods leave alone *)

Section Frames.
Context {F : Type} {PF : PyFloat F}.

Lemma same_motion_refl (e : Eye F) : same_motion e e.
Proof. repeat split. Qed.

Lemma same_motion_trans (e1 e2 e3 : Eye F) :
  same_motion e1 e2 -> same_motion e2 e3 -> same_motion e1 e3.
Proof.
  unfold same_motion. intros (?&?&?&?&?&?&?&?&?&?&?) (?&?&?&?&?&?&?&?&?&?&?).
  repeat split; congruence.
Qed.

Lemma start_blink_same_motion (now duration : Z) (e : Eye F) :
  same_motion e (start_blink now duration e).
Proof. unfold start_blink. destruct (EyeState_eqb _ _); repeat split. Qed.

Lemma set_blink_factor_same_motion (v : F) (e : Eye F) :
  same_motion e (set_blink_factor v e).
Proof. repeat split. Qed.

Lemma update_blink_same_motion (now : Z) (e e' : Eye F) (w w' : World) :
  update_blink now e w = Ok (e', w') -> same_motion e e' /\ w' = w.
Proof.
  unfold update_blink. intros H.
  destruct (negb _); [|inv_ret H; split; [apply same_motion_refl|reflexivity]].
  destruct (_ <=? _).
  - destruct (EyeState_eqb _ ENBLINK); inv_ret H; split; repeat split.
  - inv_bind H. unfold lift in Hstep. destruct (truediv _ _); [|discriminate].
    injection Hstep as <- <-.
    destruct (EyeState_eqb _ DEBLINK); inv_ret H; split; repeat split.
Qed.

End Frames.

(** C3, as the code has it: an eye that is not moving is shown at [old] when
    it is built and after every [update_autonomous], which returns whenever
    it leaves the eye stopped; [start_blink] and [update_blink] keep that.
    [update_tracking] writes the position and leaves [old] and the moving
    flag alone, so after it a stopped eye is at [old] only if the scaled
    target happens to be [old]. *)
Theorem at_rest_at_old_maintained :
  forall (F : Type) (PF : PyFloat F),
    (forall (n : string) (d : option GC9A01A) (t : F), at_rest_at_old (Eye_init n d t)) /\
    (forall (now : Z) (e e' : Eye F) (w w' : World),
        update_autonomous now e w = Ok (e', w') -> at_rest_at_old e') /\
    (forall (now : Z) (e : Eye F) (w : World),
        in_motion e = false -> now - move_start_time e <= move_duration e ->
        exists e', update_autonomous now e w = Ok (e', w) /\
                   in_motion e' = false /\ eye_x e' = old_x e' /\ eye_y e' = old_y e') /\
    (forall (now : Z) (e : Eye F) (w : World),
        in_motion e = true -> move_duration e <= now - move_start_time e ->
        exists e' w', update_autonomous now e w = Ok (e', w') /\
                      in_motion e' = false /\ eye_x e' = old_x e' /\ eye_y e' = old_y e') /\
    (forall (now duration : Z) (e : Eye F),
        at_rest_at_old e -> at_rest_at_old (start_blink now duration e)) /\
    (forall (now : Z) (e e' : Eye F) (w w' : World),
        update_blink now e w = Ok (e', w') -> at_rest_at_old e -> at_rest_at_old e') /\
    (forall (tx ty : F) (e : Eye F),
        in_motion (update_tracking tx ty e) = in_motion e /\
        old_x (update_tracking tx ty e) = old_x e /\
        old_y (update_tracking tx ty e) = old_y e /\
        (at_rest_at_old (update_tracking tx ty e) <->
         (in_motion e = false ->
          (tx * (of_int DISPLAY_SIZE * lit 9 10))%py = old_x e /\
          (ty * (of_int DISPLAY_SIZE * lit 9 10))%py = old_y e))).
Proof.
  intros F PF. repeat apply conj.
  - intros n d t _. split; reflexivity.
  - intros now e e' w w' H. eapply update_autonomous_at_rest; exact H.
  - intros now e w Hm Hle. eexists. split; [apply update_autonomous_hold; assumption|].
    cbn. repeat split. exact Hm.
  - intros now e w Hm Hle.
    pose proof (update_autonomous_complete now e w Hm Hle) as Hrun. cbv zeta in Hrun.
    destruct (saccade_interval e =? 0); eexists; eexists; (split; [exact Hrun|]);
      repeat split.
  - intros now duration e He Hm.
    destruct (start_blink_same_motion now duration e) as (Hox&Hoy&_&_&_&_&Him&_&_&Hx&Hy).
    rewrite Hx, Hy, Hox, Hoy. apply He. rewrite <- Him. exact Hm.
  - intros now e e' w w' H He Hm.
    destruct (update_blink_same_motion _ _ _ _ _ H) as [(Hox&Hoy&_&_&_&_&Him&_&_&Hx&Hy) _].
    rewrite Hx, Hy, Hox, Hoy. apply He. rewrite <- Him. exact Hm.
  - intros tx ty e. repeat apply conj; try reflexivity; intros H Hm; apply (H Hm).
Qed.

(** C3 as stated fails on a fresh eye: it is stopped and shown at [old];
    after [update_tracking(0.5, -0.5)] it is still stopped and [old] is
    still (0, 0), but it is shown at (108, -108). *)
Lemma update_tracking_leaves_old :
  let e := Eye_init (F := float) "middle" None 0%float in
  let e' := update_tracking 0.5%float (-0.5)%float e in
  at_rest_at_old e /\
  in_motion e' = false /\
  (old_x e', old_y e') = (0%float, 0%float) /\
  (eye_x e', eye_y e') = (108%float, (-108)%float) /\
  ~ at_rest_at_old e'.
Proof.
  cbv zeta. split; [intros _; split; reflexivity|].
  split; [reflexivity|]. split; [reflexivity|]. split; [reflexivity|].
  intros H. destruct (H eq_refl) as [Hx _].
  apply (f_equal (fun x => PrimFloat.eqb x 0%float)) in Hx.
  vm_compute in Hx. discriminate Hx.
Qed.

(** The statements of C3 that the theorem makes under a hypothesis, on a
    fresh eye holding and on [moving_eye] at the end of its move. *)
Lemma at_rest_at_old_maintained_witness :
  (exists e', update_autonomous 0 (Eye_init "left" None 0%float) tape0 = Ok (e', tape0) /\
              in_motion e' = false /\ eye_x e' = old_x e' /\ eye_y e' = old_y e') /\
  (exists e' w', update_autonomous 100000 moving_eye tape0 = Ok (e', w') /\
                 in_motion e' = false /\ eye_x e' = old_x e' /\ eye_y e' = old_y e').
Proof.
  destruct (at_rest_at_old_maintained float binary64) as (_ & _ & Hhold & Hdone & _).
  split.
  - apply Hhold; [reflexivity|cbn; lia].
  - apply Hdone; [reflexivity|cbn; lia].
Defined.

(** ** The controller's tick *)

Section Tick.
Context {F : Type} {PF : PyFloat F}.

Lemma eyes_rel_refl (P : Eye F -> Eye F -> Prop) (d : list (string * Eye F)) :
  (forall e, P e e) -> eyes_rel P d d.
Proof. intros HP. induction d; constructor; auto. Qed.

Lemma eyes_rel_trans (P Q S : Eye F -> Eye F -> Prop) (d1 d2 d3 : list (string * Eye F)) :
  (forall a b c, P a b -> Q b c -> S a c) ->
  eyes_rel P d1 d2 -> eyes_rel Q d2 d3 -> eyes_rel S d1 d3.
Proof.
  intros HS H12. revert d3. induction H12 as [|p1 p2 d1 d2 [Hk HP] _ IH]; intros d3 H23.
  - inversion H23. constructor.
  - inversion H23 as [|p2' p3 d2' d3' [Hk' HQ] Hrest]; subst. constructor.
    + split; [congruence|eapply HS; eassumption].
    + apply IH. exact Hrest.
Qed.

Lemma eyes_rel_map (P : Eye F -> Eye F -> Prop) (g : Eye F -> Eye F)
    (d : list (string * Eye F)) :
  (forall e, P e (g e)) -> eyes_rel P d (map (fun '(k, eye) => (k, g eye)) d).
Proof. intros HP. induction d as [|[k e] d IH]; constructor; auto. Qed.

Lemma for_values_rel (P : Eye F -> Eye F -> Prop) (method : Eye F -> M (Eye F))
    (d d' : list (string * Eye F)) (w w' : World) :
  (forall e e' w w', method e w = Ok (e', w') -> P e e') ->
  for_values method d w = Ok (d', w') -> eyes_rel P d d'.
Proof.
  intros HP. revert d' w w'. induction d as [|[k e] d IH]; intros d' w w' H; cbn in H.
  - inv_ret H. constructor.
  - inv_bind H. inv_bind H. inv_ret H. constructor.
    + split; [reflexivity|]. eapply HP. exact Hstep.
    + eapply IH. exact Hstep0.
Qed.

Lemma for_values_pure (g : Eye F -> Eye F) (d : list (string * Eye F)) (w : World) :
  for_values (fun eye => ret (g eye)) d w = Ok (map (fun '(k, eye) => (k, g eye)) d, w).
Proof.
  induction d as [|[k e] d IH]; [reflexivity|].
  cbn [for_values map]. erewrite bind_step by reflexivity.
  erewrite bind_step by exact IH. reflexivity.
Qed.

(** What [handle_blinks] does when the blink is due. *)
Lemma handle_blinks_due (now : Z) (c : EyeController F) (w : World) :
  int_geb now (next_blink_time c) = true ->
  let duration :=
    BLINK_MIN_DURATION + tape w (cursor w) mod (BLINK_MAX_DURATION - BLINK_MIN_DURATION + 1) in
  let w1 := advance w in
  let k :=
    BLINK_INTERVAL_MIN
    + tape w1 (cursor w1) mod (BLINK_INTERVAL_MIN * 2 - BLINK_INTERVAL_MIN + 1) in
  handle_blinks now c w
  = Ok (set_next_blink_time (Int (now + duration * 3 + k))
          (set_last_blink_time (Int now)
             (set_eyes (map (fun '(key, eye) => (key, start_blink now duration eye))
                            (eyes c)) c)),
        advance w1).
Proof.
  intros Hdue. cbv zeta. unfold handle_blinks. rewrite Hdue.
  erewrite bind_step by (apply randint_Ok; unfold BLINK_MIN_DURATION, BLINK_MAX_DURATION; lia).
  erewrite bind_step by (apply randint_Ok; unfold BLINK_INTERVAL_MIN; lia).
  reflexivity.
Qed.

Lemma handle_blinks_eyes (now : Z) (c c' : EyeController F) (w w' : World) :
  handle_blinks now c w = Ok (c', w') -> eyes_rel same_motion (eyes c) (eyes c').
Proof.
  unfold handle_blinks. destruct (int_geb now (next_blink_time c)); intros H.
  - inv_bind H. inv_bind H. inv_ret H. cbn [eyes set_next_blink_time set_last_blink_time
      set_eyes]. apply eyes_rel_map. intros e. apply start_blink_same_motion.
  - inv_ret H. apply eyes_rel_refl. apply same_motion_refl.
Qed.

Lemma update_blink_animation_next (now : Z) (c c' : EyeController F) (w w' : World) :
  update_blink_animation now c w = Ok (c', w') ->
  next_blink_time c' = next_blink_time c /\ eyes_rel same_motion (eyes c) (eyes c').
Proof.
  unfold update_blink_animation. intros H. inv_bind H. inv_ret H.
  split; [reflexivity|]. cbn [eyes set_eyes].
  eapply for_values_rel; [|exact Hstep].
  intros e e' w1 w2 He. apply (update_blink_same_motion _ _ _ _ _ He).
Qed.

Lemma update_positions_next (now : Z) (face : option (F * F)) (c c' : EyeController F)
    (w w' : World) :
  update_positions now face c w = Ok (c', w') ->
  next_blink_time c' = next_blink_time c /\ mode c' = mode c.
Proof.
  unfold update_positions. intros H.
  destruct (String.eqb (mode c) (EYE_MODES_item "TRACKING")).
  { inv_bind H. inv_bind H. inv_bind H. inv_ret H. split; reflexivity. }
  destruct (String.eqb (mode c) (EYE_MODES_item "WANDERING")).
  { inv_bind H. inv_ret H. split; reflexivity. }
  destruct (String.eqb (mode c) (EYE_MODES_item "REST")).
  { inv_bind H. inv_ret H. split; reflexivity. }
  inv_ret H. split; reflexivity.
Qed.

(** In rest mode the third step only closes every eye. *)
Lemma update_positions_rest (now : Z) (face : option (F * F)) (c : EyeController F)
    (w : World) :
  mode c = "rest" ->
  update_positions now face c w
  = Ok (set_eyes (map (fun '(k, eye) => (k, set_blink_factor (of_int 1) eye)) (eyes c)) c, w).
Proof.
  intros Hm. unfold update_positions. rewrite Hm.
  change (String.eqb "rest" (EYE_MODES_item "TRACKING")) with false.
  change (String.eqb "rest" (EYE_MODES_item "WANDERING")) with false.
  change (String.eqb "rest" (EYE_MODES_item "REST")) with true.
  cbv iota. erewrite bind_step by apply for_values_pure. reflexivity.
Qed.

End Tick.

(** ** Rest mode *)

Section Rest.
Context {F : Type} {PF : PyFloat F}.

Lemma start_blink_ready (now duration : Z) (e : Eye F) :
  duration <> 0 -> blink_ready e -> blink_ready (start_blink now duration e).
Proof.
  intros Hd He. unfold start_blink. destruct (EyeState_eqb _ _); [|exact He].
  intros _. exact Hd.
Qed.

Lemma update_blink_ready (now : Z) (e e' : Eye F) (w w' : World) :
  update_blink now e w = Ok (e', w') -> blink_ready e -> blink_ready e'.
Proof.
  unfold update_blink, blink_ready. intros H He.
  destruct (blink_state e) eqn:Hs; cbn [EyeState_eqb negb] in H.
  - inv_ret H. rewrite Hs. congruence.
  - assert (Hd : blink_duration e <> 0) by (apply He; discriminate).
    destruct (_ <=? _).
    + inv_ret H. cbn. lia.
    + inv_bind H. cbn [blink_state set_blink_factor] in H. rewrite Hs in H.
      cbn [EyeState_eqb] in H. inv_ret H. cbn. intros _. exact Hd.
  - assert (Hd : blink_duration e <> 0) by (apply He; discriminate).
    destruct (_ <=? _).
    + inv_ret H. cbn. congruence.
    + inv_bind H. cbn [blink_state set_blink_factor] in H. rewrite Hs in H.
      cbn [EyeState_eqb] in H. inv_ret H. cbn. intros _. exact Hd.
Qed.

Lemma update_blinks_total (now : Z) (d : list (string * Eye F)) (w : World) :
  all_eyes blink_ready d ->
  exists d', for_values (update_blink now) d w = Ok (d', w) /\ all_eyes blink_ready d'.
Proof.
  induction 1 as [|[k e] d He _ IH].
  - exists []. split; [reflexivity|constructor].
  - destruct (update_blink_total now e w He) as (e' & He').
    destruct IH as (d' & Hd' & Hready).
    exists ((k, e') :: d'). split.
    + cbn [for_values]. rewrite (bind_step _ _ _ _ _ He'). rewrite (bind_step _ _ _ _ _ Hd').
      reflexivity.
    + constructor; [|exact Hready]. eapply update_blink_ready; eassumption.
Qed.

Lemma handle_blinks_total (now : Z) (c : EyeController F) (w : World) :
  all_eyes blink_ready (eyes c) ->
  exists c' w', handle_blinks now c w = Ok (c', w') /\ all_eyes blink_ready (eyes c').
Proof.
  intros Hready. destruct (int_geb now (next_blink_time c)) eqn:Hdue.
  - pose proof (handle_blinks_due now c w Hdue) as Hrun. cbv zeta in Hrun.
    eexists _, _. split; [exact Hrun|].
    cbn [eyes set_next_blink_time set_last_blink_time set_eyes].
    unfold all_eyes in *. rewrite Forall_map.
    eapply Forall_impl; [|exact Hready]. intros [k e] He. cbn [snd] in *.
    apply start_blink_ready; [|exact He].
    pose proof (Z.mod_pos_bound (tape w (cursor w))
                  (BLINK_MAX_DURATION - BLINK_MIN_DURATION + 1)).
    unfold BLINK_MIN_DURATION, BLINK_MAX_DURATION in *. lia.
  - exists c, w. unfold handle_blinks. rewrite Hdue. split; [reflexivity|exact Hready].
Qed.

(** What one tick in rest mode does to the eyes. *)
Lemma rest_tick (now : Z) (face : option (F * F)) (c c' : EyeController F) (w w' : World) :
  mode c = "rest" ->
  update now face c w = Ok (c', w') ->
  mode c' = "rest" /\
  eyes_rel (fun e e' => same_motion e e' /\ blink_factor e' = of_int 1) (eyes c) (eyes c').
Proof.
  intros Hm H. unfold update in H.
  inv_bind H. rename a into c1. inv_bind H. rename a into c2.
  assert (Hm2 : mode c2 = "rest").
  { rewrite (update_blink_animation_mode _ _ _ _ _ Hstep0).
    rewrite (handle_blinks_mode _ _ _ _ _ Hstep). exact Hm. }
  rewrite (update_positions_rest now face c2 _ Hm2) in H.
  apply Ok_inj in H. destruct H as [<- _]. split; [exact Hm2|].
  cbn [eyes set_eyes].
  apply eyes_rel_trans with (P := same_motion) (Q := fun e e' => same_motion e e' /\
    blink_factor e' = of_int 1) (d2 := eyes c2).
  - intros a b c0 Hab [Hbc Hf]. split; [eapply same_motion_trans; eassumption|exact Hf].
  - apply eyes_rel_trans with (P := same_motion) (Q := same_motion) (d2 := eyes c1).
    + apply same_motion_trans.
    + eapply handle_blinks_eyes. exact Hstep.
    + apply (update_blink_animation_next _ _ _ _ _ Hstep0).
  - apply eyes_rel_map. intros e. split; [apply set_blink_factor_same_motion|reflexivity].
Qed.

Lemma rest_tick_total (now : Z) (face : option (F * F)) (c : EyeController F) (w : World) :
  mode c = "rest" -> all_eyes blink_ready (eyes c) ->
  exists c' w', update now face c w = Ok (c', w') /\
                mode c' = "rest" /\ all_eyes blink_ready (eyes c').
Proof.
  intros Hm Hready.
  destruct (handle_blinks_total now c w Hready) as (c1 & w1 & H1 & Hready1).
  destruct (update_blinks_total now (eyes c1) w1 Hready1) as (d2 & H2 & Hready2).
  assert (Hm1 : mode c1 = "rest")
    by (rewrite (handle_blinks_mode _ _ _ _ _ H1); exact Hm).
  assert (H2' : update_blink_animation now c1 w1 = Ok (set_eyes d2 c1, w1)).
  { unfold update_blink_animation. rewrite (bind_step _ _ _ _ _ H2). reflexivity. }
  eexists _, _. split; [|split].
  - unfold update. rewrite (bind_step _ _ _ _ _ H1). cbv beta.
    rewrite (bind_step _ _ _ _ _ H2').
    apply update_positions_rest. exact Hm1.
  - exact Hm1.
  - cbn [eyes set_eyes]. unfold all_eyes in *. rewrite Forall_map.
    eapply Forall_impl; [|exact Hready2]. intros [k e] He. exact He.
Qed.

Lemma rest_ticks (inputs : list (Z * option (F * F))) (c c' : EyeController F)
    (w w' : World) :
  mode c = "rest" ->
  updates inputs c w = Ok (c', w') ->
  mode c' = "rest" /\ eyes_rel same_motion (eyes c) (eyes c') /\
  (inputs <> [] -> all_eyes (fun e => blink_factor e = of_int 1) (eyes c')).
Proof.
  revert c w. induction inputs as [|[now face] inputs IH]; intros c w Hm H; cbn in H.
  - inv_ret H. split; [exact Hm|]. split; [|congruence].
    apply eyes_rel_refl. apply same_motion_refl.
  - inv_bind H. rename a into c1.
    destruct (rest_tick _ _ _ _ _ _ Hm Hstep) as [Hm1 Hrel1].
    destruct (IH _ _ Hm1 H) as (Hm' & Hrel & Hclosed).
    split; [exact Hm'|]. split.
    + eapply eyes_rel_trans; [|exact Hrel1|exact Hrel].
      intros a b c0 [Hab _] Hbc. eapply same_motion_trans; eassumption.
    + intros _. destruct inputs as [|i inputs'].
      * cbn in H. inv_ret H. unfold all_eyes.
        clear - Hrel1. induction Hrel1 as [|p p' d d' [_ [_ Hf]] _ IHd]; constructor; auto.
      * apply Hclosed. discriminate.
Qed.

Lemma rest_ticks_total (inputs : list (Z * option (F * F))) (c : EyeController F)
    (w : World) :
  mode c = "rest" -> all_eyes blink_ready (eyes c) ->
  exists c' w', updates inputs c w = Ok (c', w').
Proof.
  revert c w. induction inputs as [|[now face] inputs IH]; intros c w Hm Hready.
  - exists c, w. reflexivity.
  - destruct (rest_tick_total now face c w Hm Hready) as (c1 & w1 & H1 & Hm1 & Hready1).
    destruct (IH c1 w1 Hm1 Hready1) as (c' & w' & H').
    exists c', w'. cbn [updates]. rewrite (bind_step _ _ _ _ _ H1). exact H'.
Qed.

End Rest.

(** C8: in rest mode no tick changes the motion state of any eye (old and
    new positions, start time and duration of the move, the moving flag, the
    saccade interval, the last saccade stop) nor its rendered position,
    over any number of consecutive ticks, and after each tick every blink
    factor is 1.0; the step that forces the factor leaves the blink state
    and its start time and duration as they were; and the ticks return as
    long as no eye is in a blink of duration zero. *)
Theorem rest_mode_isolation :
  forall (F : Type) (PF : PyFloat F),
    (forall (now : Z) (face : option (F * F)) (c c' : EyeController F) (w w' : World),
        mode c = "rest" ->
        update now face c w = Ok (c', w') ->
        mode c' = "rest" /\
        eyes_rel (fun e e' => same_motion e e' /\ blink_factor e' = of_int 1)
                 (eyes c) (eyes c')) /\
    (forall (inputs : list (Z * option (F * F))) (c c' : EyeController F) (w w' : World),
        mode c = "rest" ->
        updates inputs c w = Ok (c', w') ->
        mode c' = "rest" /\ eyes_rel same_motion (eyes c) (eyes c') /\
        (inputs <> [] -> all_eyes (fun e => blink_factor e = of_int 1) (eyes c'))) /\
    (forall (now : Z) (face : option (F * F)) (c : EyeController F) (w : World),
        mode c = "rest" ->
        exists c' : EyeController F,
          update_positions now face c w = Ok (c', w) /\
          eyes_rel (fun e e' =>
                      same_motion e e' /\ blink_state e' = blink_state e /\
                      blink_start_time e' = blink_start_time e /\
                      blink_duration e' = blink_duration e /\
                      blink_factor e' = of_int 1)
                   (eyes c) (eyes c')) /\
    (forall (inputs : list (Z * option (F * F))) (c : EyeController F) (w : World),
        mode c = "rest" -> all_eyes blink_ready (eyes c) ->
        exists c' w', updates inputs c w = Ok (c', w')).
Proof.
  intros F PF. split; [|split; [|split]].
  - intros now face c c' w w' Hm H. eapply rest_tick; eassumption.
  - intros inputs c c' w w' Hm H. eapply rest_ticks; eassumption.
  - intros now face c w Hm. eexists. split; [apply update_positions_rest; exact Hm|].
    cbn [eyes set_eyes]. apply eyes_rel_map. intros e. repeat split.
  - intros inputs c w Hm Hready. apply rest_ticks_total; assumption.
Qed.

(** C8 over three ticks of the resting controller, the first of which fires
    a blink and the second of which carries a face position. *)
Lemma rest_mode_isolation_witness :
  exists (c c' : EyeController float) (w w' : World),
    resting0 tape0 = Ok (c, w) /\
    updates [(10000000, None); (10050000, Some (0.5, -0.5)%float); (10100000, None)] c w
    = Ok (c', w') /\
    mode c' = "rest" /\ eyes_rel same_motion (eyes c) (eyes c') /\
    all_eyes (fun e => blink_factor e = 1%float) (eyes c').
Proof.
  destruct (resting0 tape0) as [[c w]|] eqn:Hc.
  - assert (Hm : mode c = "rest").
    { vm_compute in Hc. apply Ok_inj in Hc. destruct Hc as [<- _]. reflexivity. }
    assert (Hready : all_eyes blink_ready (eyes c)).
    { vm_compute in Hc. apply Ok_inj in Hc. destruct Hc as [<- _].
      repeat constructor; intros H; exfalso; apply H; reflexivity. }
    destruct (rest_mode_isolation float binary64) as (_ & Hticks & _ & Htotal).
    destruct (Htotal [(10000000, None); (10050000, Some (0.5, -0.5)%float);
                      (10100000, None)] c w Hm Hready) as (c' & w' & Hrun).
    destruct (Hticks _ _ _ _ _ Hm Hrun) as (Hm' & Hrel & Hclosed).
    exists c, c', w, w'.
    split; [reflexivity|]. split; [exact Hrun|]. split; [exact Hm'|].
    split; [exact Hrel|]. apply Hclosed. discriminate.
  - vm_compute in Hc. discriminate Hc.
Defined.

(** ** [EyeController.set_mode] *)

Section SetMode.
Context {F : Type} {PF : PyFloat F}.

Lemma valid_mode_dec (m : string) :
  existsb (String.eqb m) (values EYE_MODES) = true <-> valid_mode m.
Proof.
  unfold valid_mode. cbn [existsb values EYE_MODES map snd].
  rewrite !orb_true_iff, !String.eqb_eq. intuition congruence.
Qed.

Lemma set_mode_valid (m : string) (c : EyeController F) (w : World) :
  valid_mode m ->
  set_mode m c w = Ok ((set_mode_attr m c, tt), printed ("Eye mode changed to: " ++ m) w).
Proof.
  intros Hv. apply valid_mode_dec in Hv. unfold set_mode. rewrite Hv. reflexivity.
Qed.

Lemma set_mode_invalid (m : string) (c : EyeController F) (w : World) :
  ~ valid_mode m ->
  set_mode m c w = Ok ((c, tt), printed ("Invalid mode: " ++ m) w).
Proof.
  intros Hv. unfold set_mode.
  destruct (existsb (String.eqb m) (values EYE_MODES)) eqn:E.
  - apply valid_mode_dec in E. contradiction.
  - reflexivity.
Qed.

End SetMode.

(** C9, as the code has it: a mode that is none of "tracking", "wandering"
    and "rest" leaves the controller as it was, and a valid mode becomes the
    controller's mode; the call returns [None] either way, and what tells
    the two apart is the line it prints. *)
Theorem set_mode_outcome :
  forall (F : Type) (PF : PyFloat F) (m : string) (c : EyeController F) (w : World),
    (valid_mode m ->
     set_mode m c w
     = Ok ((set_mode_attr m c, tt), printed ("Eye mode changed to: " ++ m) w) /\
     mode (set_mode_attr m c) = m) /\
    (~ valid_mode m ->
     set_mode m c w = Ok ((c, tt), printed ("Invalid mode: " ++ m) w)) /\
    (exists (c' : EyeController F) (w' : World), set_mode m c w = Ok ((c', tt), w')).
Proof.
  intros F PF m c w. split; [|split].
  - intros Hv. split; [apply set_mode_valid; exact Hv|reflexivity].
  - intros Hv. apply set_mode_invalid. exact Hv.
  - destruct (existsb (String.eqb m) (values EYE_MODES)) eqn:E.
    + eexists _, _. apply set_mode_valid. apply valid_mode_dec. exact E.
    + eexists _, _. apply set_mode_invalid. intros Hv. apply valid_mode_dec in Hv.
      congruence.
Qed.

(** C9 as stated fails: the rejected call and an accepted call return the
    same value, so no returned value shows the rejection; the printed line
    does. *)
Lemma set_mode_returns_none :
  exists (c1 c2 : EyeController float) (r1 r2 : unit) (w1 w2 : World),
    set_mode "sleeping" bare_controller tape0 = Ok ((c1, r1), w1) /\
    set_mode "rest" bare_controller tape0 = Ok ((c2, r2), w2) /\
    mode c1 = mode bare_controller /\ mode c2 = "rest" /\
    mode bare_controller <> "rest" /\
    r1 = r2 /\
    stdout w1 = ["Invalid mode: sleeping"] /\
    stdout w2 = ["Eye mode changed to: rest"].
Proof.
  exists bare_controller, (set_mode_attr "rest" bare_controller), tt, tt,
    (printed "Invalid mode: sleeping" tape0), (printed "Eye mode changed to: rest" tape0).
  split; [vm_compute; reflexivity|]. split; [vm_compute; reflexivity|].
  split; [reflexivity|]. split; [reflexivity|].
  split; [discriminate|]. split; [reflexivity|]. split; reflexivity.
Qed.

(** C9 on [bare_controller]: one rejected and one accepted call. *)
Lemma set_mode_outcome_witness :
  (set_mode "sleeping" bare_controller tape0
   = Ok ((bare_controller, tt), printed "Invalid mode: sleeping" tape0)) /\
  (set_mode "rest" bare_controller tape0
   = Ok ((set_mode_attr "rest" bare_controller, tt),
         printed "Eye mode changed to: rest" tape0)).
Proof.
  split.
  - apply (proj1 (proj2 (set_mode_outcome float binary64 "sleeping" bare_controller tape0))).
    unfold valid_mode. intros [H|[H|H]]; discriminate H.
  - apply (proj1 (set_mode_outcome float binary64 "rest" bare_controller tape0)).
    right. right. reflexivity.
Defined.

(** ** Further properties of one eye *)

Section EyeFacts.
Context {F : Type} {PF : PyFloat F}.

(** [update_autonomous] overwrites the rendered position before it reads it. *)
Lemma update_autonomous_position_unread (now : Z) (vx vy : F) (e : Eye F) (w : World) :
  update_autonomous now (set_eye_y vy (set_eye_x vx e)) w = update_autonomous now e w.
Proof.
  destruct e. unfold update_autonomous.
  cbn [set_eye_x set_eye_y in_motion move_start_time move_duration saccade_interval
       last_saccade_stop old_x old_y new_x new_y eye_x eye_y set_in_motion set_old_x
       set_old_y].
  reflexivity.
Qed.

(** What a move that starts looks like, whichever kind is drawn. *)
Lemma update_autonomous_started (now : Z) (e e' : Eye F) (w w' : World) :
  in_motion e = false ->
  move_duration e < now - move_start_time e ->
  update_autonomous now e w = Ok (e', w') ->
  in_motion e' = true /\ move_start_time e' = now /\
  old_x e' = old_x e /\ old_y e' = old_y e /\ eye_x e' = old_x e /\ eye_y e' = old_y e /\
  last_saccade_stop e' = last_saccade_stop e /\
  same_blink e e' /\ same_fixed e e' /\
  if gtb_int (int_sub now (last_saccade_stop e)) (saccade_interval e)
  then SACCADE_MIN_DURATION <= move_duration e' <= SACCADE_MAX_DURATION /\
       saccade_interval e' = 0
  else MICROSACCADE_MIN_DURATION <= move_duration e' <= MICROSACCADE_MAX_DURATION /\
       saccade_interval e' = saccade_interval e.
Proof.
  intros Hm Hlt H. unfold update_autonomous in H. rewrite Hm in H.
  cbn [move_duration set_eye_x set_eye_y last_saccade_stop saccade_interval] in H.
  destruct (Z.ltb_spec (move_duration e) (now - move_start_time e)); [|lia].
  inv_bind H. inv_ret H.
  destruct (gtb_int (int_sub now (last_saccade_stop e)) (saccade_interval e)).
  - inv_bind Hstep. inv_bind Hstep. inv_bind Hstep. inv_bind Hstep. inv_ret Hstep.
    match goal with Hd : randint _ _ _ = Ok _ |- _ =>
      apply randint_range in Hd; destruct Hd as [Hd _] end.
    cbn. repeat split; try reflexivity; lia.
  - inv_bind Hstep. inv_bind Hstep. inv_bind Hstep. inv_bind Hstep. inv_ret Hstep.
    match goal with Hd : randint _ _ _ = Ok _ |- _ =>
      apply randint_range in Hd; destruct Hd as [Hd _] end.
    cbn. repeat split; try reflexivity; lia.
Qed.

(** Whatever branch is taken, the blink attributes and the attributes set at
    construction only are left alone. *)
Lemma update_autonomous_others (now : Z) (e e' : Eye F) (w w' : World) :
  update_autonomous now e w = Ok (e', w') -> same_blink e e' /\ same_fixed e e'.
Proof.
  intros H. destruct (in_motion e) eqn:Hm.
  - destruct (Z.le_gt_cases (move_duration e) (now - move_start_time e)) as [Hle|Hgt].
    + rewrite (update_autonomous_complete now e w Hm Hle) in H. cbv zeta in H.
      destruct (saccade_interval e =? 0); apply Ok_inj in H; destruct H as [<- _];
        split; repeat split.
    + unfold update_autonomous in H. rewrite Hm in H.
      destruct (Z.leb_spec (move_duration e) (now - move_start_time e)); [lia|].
      inv_bind H. inv_ret H. split; repeat split.
  - destruct (Z.le_gt_cases (now - move_start_time e) (move_duration e)) as [Hle|Hgt].
    + rewrite (update_autonomous_hold now e w Hm Hle) in H.
      apply Ok_inj in H. destruct H as [<- _]. split; repeat split.
    + destruct (update_autonomous_started now e e' w w' Hm) as (_&_&_&_&_&_&_&Hb&Hf&_);
        [lia|exact H|]. split; assumption.
Qed.

(** The one failure of [update_autonomous] that does not depend on the
    arithmetic: the division by a zero duration. *)
Lemma update_autonomous_zero_division (now : Z) (e : Eye F) (w : World) :
  in_motion e = true -> move_duration e = 0 -> now < move_start_time e ->
  update_autonomous now e w = Raise ZeroDivisionError.
Proof.
  intros Hm Hd Hlt. unfold update_autonomous, truediv. rewrite Hm, Hd.
  destruct (Z.leb_spec 0 (now - move_start_time e)); [lia|]. reflexivity.
Qed.

Lemma update_autonomous_move_ready (now : Z) (e e' : Eye F) (w w' : World) :
  update_autonomous now e w = Ok (e', w') -> move_ready e -> move_ready e'.
Proof.
  intros H He Hm'. destruct (in_motion e) eqn:Hm.
  - destruct (Z.le_gt_cases (move_duration e) (now - move_start_time e)) as [Hle|Hgt].
    + exfalso. rewrite (update_autonomous_complete now e w Hm Hle) in H. cbv zeta in H.
      destruct (saccade_interval e =? 0); apply Ok_inj in H; destruct H as [<- _];
        discriminate Hm'.
    + unfold update_autonomous in H. rewrite Hm in H.
      destruct (Z.leb_spec (move_duration e) (now - move_start_time e)); [lia|].
      inv_bind H. inv_ret H. cbn. apply He. exact Hm.
  - destruct (Z.le_gt_cases (now - move_start_time e) (move_duration e)) as [Hle|Hgt].
    + exfalso. rewrite (update_autonomous_hold now e w Hm Hle) in H.
      apply Ok_inj in H. destruct H as [<- _]. cbn in Hm'. congruence.
    + destruct (update_autonomous_started now e e' w w' Hm) as (_&_&_&_&_&_&_&_&_&Hd);
        [lia|exact H|].
      destruct (gtb_int _ _); destruct Hd as [Hd _];
        unfold SACCADE_MIN_DURATION, MICROSACCADE_MIN_DURATION in Hd; lia.
Qed.

(** The failure of [update_blink]. *)
Lemma update_blink_zero_division (now : Z) (e : Eye F) (w : World) :
  blink_state e <> NOBLINK -> blink_duration e = 0 -> now < blink_start_time e ->
  update_blink now e w = Raise ZeroDivisionError.
Proof.
  intros Hs Hd Hlt. unfold update_blink, truediv. rewrite Hd.
  destruct (blink_state e); [congruence| |]; cbn [EyeState_eqb negb];
    (destruct (Z.leb_spec 0 (now - blink_start_time e)); [lia|reflexivity]).
Qed.

End EyeFacts.

(** X1: [update_autonomous] never reads the rendered position it is given:
    run after [update_tracking] it returns exactly what it returns without
    it, so tracking a face leaves no trace in the autonomous motion. *)
Theorem update_autonomous_forgets_tracking :
  forall (F : Type) (PF : PyFloat F) (now : Z) (tx ty : F) (e : Eye F) (w : World),
    update_autonomous now (update_tracking tx ty e) w = update_autonomous now e w.
Proof.
  intros F PF now tx ty e w. unfold update_tracking.
  apply update_autonomous_position_unread.
Qed.

(** X2: whenever [update_autonomous] returns, the blink state, its start
    time and duration and the blink factor are as before, and so are the
    attributes that only [__init__] sets (name, display, target, pupil and
    lid factors). *)
Theorem update_autonomous_keeps_blink :
  forall (F : Type) (PF : PyFloat F) (now : Z) (e e' : Eye F) (w w' : World),
    update_autonomous now e w = Ok (e', w') -> same_blink e e' /\ same_fixed e e'.
Proof. intros F PF now e e' w w' H. eapply update_autonomous_others. exact H. Qed.

Lemma update_autonomous_keeps_blink_witness :
  exists (e' : Eye float) (w' : World),
    update_autonomous 1 stopped_eye tape0 = Ok (e', w') /\
    same_blink stopped_eye e' /\ same_fixed stopped_eye e'.
Proof.
  destruct (update_autonomous 1 stopped_eye tape0) as [[e' w']|] eqn:H;
    [|vm_compute in H; discriminate H].
  exists e', w'. split; [reflexivity|].
  exact (update_autonomous_keeps_blink float binary64 1 stopped_eye e' tape0 w' H).
Defined.

(** X3: a move that [update_autonomous] starts on a stopped eye starts at
    [now] and lasts between [SACCADE_MIN_DURATION] and
    [SACCADE_MAX_DURATION] when it is a major saccade, which clears the
    pending interval, and between [MICROSACCADE_MIN_DURATION] and
    [MICROSACCADE_MAX_DURATION] when it is a microsaccade, which keeps the
    interval; and an eye whose move in progress has a positive duration
    still has one after any [update_autonomous]. *)
Theorem started_move_duration :
  forall (F : Type) (PF : PyFloat F) (now : Z) (e e' : Eye F) (w w' : World),
    update_autonomous now e w = Ok (e', w') ->
    (in_motion e = false -> in_motion e' = true ->
     move_duration e < now - move_start_time e /\
     move_start_time e' = now /\
     if gtb_int (int_sub now (last_saccade_stop e)) (saccade_interval e)
     then SACCADE_MIN_DURATION <= move_duration e' <= SACCADE_MAX_DURATION /\
          saccade_interval e' = 0
     else MICROSACCADE_MIN_DURATION <= move_duration e' <= MICROSACCADE_MAX_DURATION /\
          saccade_interval e' = saccade_interval e) /\
    (move_ready e -> move_ready e').
Proof.
  intros F PF now e e' w w' H. split.
  - intros Hm Hm'.
    destruct (Z.le_gt_cases (now - move_start_time e) (move_duration e)) as [Hle|Hgt].
    + exfalso. rewrite (update_autonomous_hold now e w Hm Hle) in H.
      apply Ok_inj in H. destruct H as [<- _]. cbn in Hm'. congruence.
    + destruct (update_autonomous_started now e e' w w' Hm) as (_&Ht&_&_&_&_&_&_&_&Hd);
        [lia|exact H|]. split; [lia|]. split; [exact Ht|exact Hd].
  - eapply update_autonomous_move_ready. exact H.
Qed.

Lemma started_move_duration_witness :
  exists (e' : Eye float) (w' : World),
    update_autonomous 1 stopped_eye tape0 = Ok (e', w') /\
    in_motion e' = true /\ move_start_time e' = 1 /\
    83000 <= move_duration e' <= 166000 /\ saccade_interval e' = 0.
Proof.
  destruct (update_autonomous 1 stopped_eye tape0) as [[e' w']|] eqn:H;
    [|vm_compute in H; discriminate H].
  assert (Hm' : in_motion e' = true).
  { vm_compute in H. apply Ok_inj in H. destruct H as [<- _]. reflexivity. }
  destruct (started_move_duration float binary64 1 stopped_eye e' tape0 w' H)
    as [Hstart _].
  destruct (Hstart eq_refl Hm') as (_ & Ht & Hd & Hi).
  exists e', w'. split; [reflexivity|]. split; [exact Hm'|]. split; [exact Ht|].
  split; [exact Hd|exact Hi].
Defined.

(** X4: [update_blink] raises [ZeroDivisionError] when the eye is in a
    blink of duration zero and the clock is before the start of the blink
    (the zero divisor is tested before anything else in [dt / 0]).  In every
    other case, for a clock within [2 ** 1023] microseconds of the start of
    the blink, so that the quotient [dt / blink_duration] is within the
    range of a float and the division cannot raise [OverflowError], it
    returns and draws and prints nothing. *)
Theorem update_blink_failure :
  forall (F : Type) (PF : PyFloat F) (now : Z) (e : Eye F) (w : World),
    (blink_state e <> NOBLINK /\ blink_duration e = 0 /\ now < blink_start_time e ->
     update_blink now e w = Raise ZeroDivisionError) /\
    (~ (blink_state e <> NOBLINK /\ blink_duration e = 0 /\ now < blink_start_time e) ->
     Z.abs (now - blink_start_time e) < 2 ^ 1023 ->
     exists e', update_blink now e w = Ok (e', w)).
Proof.
  intros F PF now e w. split.
  - intros (Hs & Hd & Hlt). apply update_blink_zero_division; assumption.
  - intros Hno _. destruct (Z.eq_dec (blink_duration e) 0) as [Hd|Hd].
    + destruct (blink_state e) eqn:Hs.
      * eexists. apply update_blink_open. exact Hs.
      * eexists. apply update_blink_closed; [exact Hs|].
        destruct (Z.lt_ge_cases now (blink_start_time e)); [|lia].
        exfalso. apply Hno. repeat split; [discriminate|assumption..].
      * eexists. apply update_blink_opened; [exact Hs|].
        destruct (Z.lt_ge_cases now (blink_start_time e)); [|lia].
        exfalso. apply Hno. repeat split; [discriminate|assumption..].
    + apply update_blink_total. intros _. exact Hd.
Qed.

(** X4 in double precision: an eye closing since 10 with duration zero
    raises at 5, and returns at 15. *)
Lemma update_blink_failure_witness :
  update_blink 5 (set_blink_start_time 10 (set_blink_state ENBLINK
                                             (Eye_init "left" None 0%float))) tape0
  = Raise ZeroDivisionError /\
  exists e' : Eye float,
    update_blink 15 (set_blink_start_time 10 (set_blink_state ENBLINK
                                                (Eye_init "left" None 0%float))) tape0
    = Ok (e', tape0).
Proof.
  split.
  - apply (proj1 (update_blink_failure float binary64 5 _ tape0)).
    split; [discriminate|]. split; [reflexivity|cbn; lia].
  - apply (proj2 (update_blink_failure float binary64 15 _ tape0)).
    + intros (_ & _ & Hlt). cbn in Hlt. lia.
    + vm_compute. reflexivity.
Defined.

(** X5: a blink started at [t] with duration [d] on an open eye, then
    updated at any [t1 >= t + d] and at any [t2 >= t1 + 2 * d], goes
    through opening (factor 1.0, timed from [t1] with duration [2 * d]) and
    ends open with factor 0.0, the motion state and position untouched. *)
Theorem blink_cycle :
  forall (F : Type) (PF : PyFloat F) (t d t1 t2 : Z) (e : Eye F) (w : World),
    blink_state e = NOBLINK -> t + d <= t1 -> t1 + 2 * d <= t2 ->
    exists e1 e2 : Eye F,
      update_blink t1 (start_blink t d e) w = Ok (e1, w) /\
      blink_state e1 = DEBLINK /\ blink_factor e1 = of_int 1 /\
      blink_start_time e1 = t1 /\ blink_duration e1 = d * 2 /\
      update_blink t2 e1 w = Ok (e2, w) /\
      blink_state e2 = NOBLINK /\ blink_factor e2 = of_int 0 /\
      same_motion e e2 /\ same_fixed e e2.
Proof.
  intros F PF t d t1 t2 e w He H1 H2. rewrite (start_blink_open _ _ _ He).
  eexists. eexists.
  split; [apply update_blink_closed; [reflexivity|cbn; lia]|].
  split; [reflexivity|]. split; [reflexivity|]. split; [reflexivity|].
  split; [reflexivity|].
  split; [apply update_blink_opened; [reflexivity|cbn; lia]|].
  split; [reflexivity|]. split; [reflexivity|]. split; repeat split.
Qed.

Lemma blink_cycle_witness :
  exists e1 e2 : Eye float,
    update_blink 41000 (start_blink 100 40000 stopped_eye) tape0 = Ok (e1, tape0) /\
    blink_state e1 = DEBLINK /\ blink_factor e1 = 1%float /\
    blink_start_time e1 = 41000 /\ blink_duration e1 = 80000 /\
    update_blink 130000 e1 tape0 = Ok (e2, tape0) /\
    blink_state e2 = NOBLINK /\ blink_factor e2 = 0%float /\
    same_motion stopped_eye e2 /\ same_fixed stopped_eye e2.
Proof.
  apply (blink_cycle float binary64 100 40000 41000 130000 stopped_eye tape0).
  - reflexivity.
  - lia.
  - lia.
Defined.

(** ** Over the reals: nothing raises but the division by zero *)

Section RealTotal.
Local Open Scope R_scope.

(** A stopped eye whose hold has elapsed always gets its move. *)
Lemma update_autonomous_start_real (now : Z) (e : Eye R) (w : World) :
  in_motion e = false ->
  (move_duration e < now - move_start_time e)%Z ->
  exists (e' : Eye R) (w' : World), update_autonomous now e w = Ok (e', w').
Proof.
  intros Hm Hlt. unfold update_autonomous. rewrite Hm.
  cbn [move_duration set_eye_x set_eye_y last_saccade_stop saccade_interval].
  destruct (Z.ltb_spec (move_duration e) (now - move_start_time e)); [|lia].
  destruct (gtb_int _ _).
  - set (r := (of_int DISPLAY_SIZE * lit 75 100)%py).
    assert (Hr0 : 0 <= r)
      by (subst r; unfold lit, DISPLAY_SIZE; cbn [of_int fmul fdiv real]; lra).
    destruct (uniform_between (- r) r w) as (x & Hx & Hxr); [lra|].
    assert (Hh : 0 <= r * r - x * x) by nra.
    destruct (uniform_between (- R_sqrt.sqrt (r * r - x * x)) (R_sqrt.sqrt (r * r - x * x))
                (advance w))
      as (y & Hy & Hyr); [pose proof (sqrt_pos (r * r - x * x)); lra|].
    eexists. eexists.
    erewrite bind_step; [reflexivity|].
    cbn [fneg real]. rewrite (bind_step _ _ _ _ _ Hx). cbv beta zeta.
    cbn [new_x set_new_x fmul fsub real]. rewrite (math_sqrt_Ok _ Hh).
    erewrite bind_step by reflexivity.
    rewrite (bind_step _ _ _ _ _ Hy). cbv beta zeta.
    erewrite bind_step by (apply randint_Ok; unfold SACCADE_MIN_DURATION,
      SACCADE_MAX_DURATION; lia).
    reflexivity.
  - set (r := (of_int DISPLAY_SIZE * lit 7 100)%py).
    assert (Hr0 : 0 <= r)
      by (subst r; unfold lit, DISPLAY_SIZE; cbn [of_int fmul fdiv real]; lra).
    destruct (uniform_between (- r) r w) as (x & Hx & Hxr); [lra|].
    assert (Hh : 0 <= r * r - x * x) by nra.
    destruct (uniform_between (- R_sqrt.sqrt (r * r - x * x)) (R_sqrt.sqrt (r * r - x * x))
                (advance w))
      as (y & Hy & Hyr); [pose proof (sqrt_pos (r * r - x * x)); lra|].
    eexists. eexists.
    erewrite bind_step; [reflexivity|].
    cbn [fneg real]. rewrite (bind_step _ _ _ _ _ Hx). cbv beta zeta.
    cbn [fmul fsub real]. rewrite (math_sqrt_Ok _ Hh).
    erewrite bind_step by reflexivity.
    rewrite (bind_step _ _ _ _ _ Hy). cbv beta zeta.
    erewrite bind_step by (apply randint_Ok; unfold MICROSACCADE_MIN_DURATION,
      MICROSACCADE_MAX_DURATION; lia).
    reflexivity.
Qed.

Lemma update_autonomous_total_real (now : Z) (e : Eye R) (w : World) :
  ~ (in_motion e = true /\ move_duration e = 0%Z /\ (now < move_start_time e)%Z) ->
  exists (e' : Eye R) (w' : World), update_autonomous now e w = Ok (e', w').
Proof.
  intros Hno. destruct (in_motion e) eqn:Hm.
  - destruct (Z.le_gt_cases (move_duration e) (now - move_start_time e)) as [Hle|Hgt].
    + pose proof (update_autonomous_complete now e w Hm Hle) as Hrun. cbv zeta in Hrun.
      destruct (saccade_interval e =? 0)%Z; eexists; eexists; exact Hrun.
    + eexists. eexists. apply update_autonomous_easing; [exact Hm|lia|].
      intros Hd. apply Hno. repeat split; [exact Hd|lia].
  - destruct (Z.le_gt_cases (now - move_start_time e) (move_duration e)) as [Hle|Hgt].
    + eexists. eexists. apply update_autonomous_hold; assumption.
    + apply update_autonomous_start_real; [exact Hm|lia].
Qed.

End RealTotal.

(** X6: over the reals [update_autonomous] raises exactly when the eye is
    in a move of duration zero and the clock is before the start of the
    move; the exception is [ZeroDivisionError] (in every arithmetic); in
    every other case it returns: neither [randint] nor [math.sqrt] fails. *)
Theorem update_autonomous_failure :
  (forall (F : Type) (PF : PyFloat F) (now : Z) (e : Eye F) (w : World),
      in_motion e = true /\ move_duration e = 0 /\ now < move_start_time e ->
      update_autonomous now e w = Raise ZeroDivisionError) /\
  (forall (now : Z) (e : Eye R) (w : World),
      ~ (in_motion e = true /\ move_duration e = 0 /\ now < move_start_time e) ->
      exists (e' : Eye R) (w' : World), update_autonomous now e w = Ok (e', w')).
Proof.
  split.
  - intros F PF now e w (Hm & Hd & Hlt). apply update_autonomous_zero_division; assumption.
  - intros now e w Hno. apply update_autonomous_total_real. exact Hno.
Qed.

Lemma update_autonomous_failure_witness :
  update_autonomous (-1) (set_in_motion true (Eye_init "left" None 0%float)) tape0
  = Raise ZeroDivisionError /\
  exists (e' : Eye R) (w' : World),
    update_autonomous 1 (Eye_init "left" None 0%R) tape0 = Ok (e', w').
Proof.
  split.
  - apply (proj1 update_autonomous_failure float binary64).
    split; [reflexivity|]. split; [reflexivity|]. cbn. lia.
  - apply (proj2 update_autonomous_failure).
    intros (Hm & _). discriminate Hm.
Defined.

(** ** Further properties of the controller *)

Section TickFacts.
Context {F : Type} {PF : PyFloat F}.

Lemma eyes_rel_keys (P : Eye F -> Eye F -> Prop) (d d' : list (string * Eye F)) :
  eyes_rel P d d' -> map fst d' = map fst d.
Proof. induction 1 as [|p p' d d' [Hk _] _ IH]; cbn; congruence. Qed.

Lemma eyes_rel_all (Q Q' : Eye F -> Prop) (d d' : list (string * Eye F)) :
  eyes_rel (fun e e' => Q e -> Q' e') d d' -> all_eyes Q d -> all_eyes Q' d'.
Proof.
  unfold all_eyes. induction 1 as [|p p' d d' [_ HP] _ IH]; intros Hall.
  - constructor.
  - inversion Hall; subst. constructor; auto.
Qed.

Lemma eyes_rel_weaken (P Q : Eye F -> Eye F -> Prop) (d d' : list (string * Eye F)) :
  (forall e e', P e e' -> Q e e') -> eyes_rel P d d' -> eyes_rel Q d d'.
Proof.
  intros HPQ. induction 1 as [|p p' d d' [Hk HP] _ IH]; constructor; auto.
Qed.

Lemma at_key_rel (P : Eye F -> Eye F -> Prop) (key : string) (method : Eye F -> M (Eye F))
    (d d' : list (string * Eye F)) (w w' : World) :
  (forall e, P e e) ->
  (forall e e' w w', method e w = Ok (e', w') -> P e e') ->
  at_key key method d w = Ok (d', w') -> eyes_rel P d d'.
Proof.
  intros Hrefl HP. revert d' w'. induction d as [|[k e] d IH]; intros d' w' H; cbn in H.
  - discriminate.
  - destruct (String.eqb k key).
    + inv_bind H. inv_ret H. constructor.
      * split; [reflexivity|]. eapply HP. exact Hstep.
      * apply eyes_rel_refl. exact Hrefl.
    + inv_bind H. inv_ret H. constructor.
      * split; [reflexivity|apply Hrefl].
      * eapply IH. exact Hstep.
Qed.

Lemma handle_blinks_rel (P : Eye F -> Eye F -> Prop) (now : Z) (c c' : EyeController F)
    (w w' : World) :
  (forall e, P e e) ->
  (forall d e, BLINK_MIN_DURATION <= d <= BLINK_MAX_DURATION -> P e (start_blink now d e)) ->
  handle_blinks now c w = Ok (c', w') -> eyes_rel P (eyes c) (eyes c').
Proof.
  intros Hrefl HP. unfold handle_blinks.
  destruct (int_geb now (next_blink_time c)); intros H.
  - inv_bind H. inv_bind H. inv_ret H.
    cbn [eyes set_next_blink_time set_last_blink_time set_eyes].
    apply eyes_rel_map. intros e. apply HP.
    apply randint_range in Hstep. apply Hstep.
  - inv_ret H. apply eyes_rel_refl. exact Hrefl.
Qed.

Lemma update_blink_animation_rel (P : Eye F -> Eye F -> Prop) (now : Z)
    (c c' : EyeController F) (w w' : World) :
  (forall e e' w w', update_blink now e w = Ok (e', w') -> P e e') ->
  update_blink_animation now c w = Ok (c', w') -> eyes_rel P (eyes c) (eyes c').
Proof.
  intros HP. unfold update_blink_animation. intros H. inv_bind H. inv_ret H.
  cbn [eyes set_eyes]. eapply for_values_rel; [exact HP|exact Hstep].
Qed.

Lemma update_positions_rel (P : Eye F -> Eye F -> Prop) (now : Z) (face : option (F * F))
    (c c' : EyeController F) (w w' : World) :
  (forall e, P e e) ->
  (forall e1 e2 e3, P e1 e2 -> P e2 e3 -> P e1 e3) ->
  (forall e e' w w', update_autonomous now e w = Ok (e', w') -> P e e') ->
  (forall tx ty e, P e (update_tracking tx ty e)) ->
  (mode c = "rest" -> forall e, P e (set_blink_factor (of_int 1) e)) ->
  update_positions now face c w = Ok (c', w') -> eyes_rel P (eyes c) (eyes c').
Proof.
  intros Hrefl Htrans Hauto Htrack Hrest. unfold update_positions. intros H.
  destruct (String.eqb (mode c) (EYE_MODES_item "TRACKING")).
  { inv_bind H. inv_bind H. inv_bind H. inv_ret H. cbn [eyes set_eyes].
    apply eyes_rel_trans with (P := P) (Q := P) (d2 := a0); [exact Htrans| |].
    - apply eyes_rel_trans with (P := P) (Q := P) (d2 := a); [exact Htrans| |].
      + destruct face as [[x y]|].
        * eapply at_key_rel; [exact Hrefl| |exact Hstep].
          intros e e' wa wb He. inv_ret He. apply Htrack.
        * eapply at_key_rel; [exact Hrefl|exact Hauto|exact Hstep].
      + eapply at_key_rel; [exact Hrefl|exact Hauto|exact Hstep0].
    - eapply at_key_rel; [exact Hrefl|exact Hauto|exact Hstep1]. }
  destruct (String.eqb (mode c) (EYE_MODES_item "WANDERING")).
  { inv_bind H. inv_ret H. cbn [eyes set_eyes].
    eapply for_values_rel; [exact Hauto|exact Hstep]. }
  destruct (String.eqb (mode c) (EYE_MODES_item "REST")) eqn:E.
  { inv_bind H. inv_ret H. cbn [eyes set_eyes].
    apply String.eqb_eq in E. specialize (Hrest E).
    eapply for_values_rel; [|exact Hstep].
    intros e e' wa wb He. inv_ret He. apply Hrest. }
  inv_ret H. apply eyes_rel_refl. exact Hrefl.
Qed.

(** A relation that every method of [Eye] respects holds across a tick. *)
Lemma update_rel (P : Eye F -> Eye F -> Prop) (now : Z) (face : option (F * F))
    (c c' : EyeController F) (w w' : World) :
  (forall e, P e e) ->
  (forall e1 e2 e3, P e1 e2 -> P e2 e3 -> P e1 e3) ->
  (forall d e, P e (start_blink now d e)) ->
  (forall e e' w w', update_blink now e w = Ok (e', w') -> P e e') ->
  (forall e e' w w', update_autonomous now e w = Ok (e', w') -> P e e') ->
  (forall tx ty e, P e (update_tracking tx ty e)) ->
  (forall e, P e (set_blink_factor (of_int 1) e)) ->
  update now face c w = Ok (c', w') -> eyes_rel P (eyes c) (eyes c').
Proof.
  intros Hrefl Htrans Hstart Hblink Hauto Htrack Hrest H. unfold update in H.
  inv_bind H. rename a into c1. inv_bind H. rename a into c2.
  apply eyes_rel_trans with (P := P) (Q := P) (d2 := eyes c2); [exact Htrans| |].
  - apply eyes_rel_trans with (P := P) (Q := P) (d2 := eyes c1); [exact Htrans| |].
    + eapply handle_blinks_rel; [exact Hrefl| |exact Hstep]. intros d e _. apply Hstart.
    + eapply update_blink_animation_rel; [exact Hblink|exact Hstep0].
  - eapply update_positions_rel; try eassumption. intros _. exact Hrest.
Qed.

Lemma same_fixed_refl (e : Eye F) : same_fixed e e.
Proof. repeat split. Qed.

Lemma same_fixed_trans (e1 e2 e3 : Eye F) :
  same_fixed e1 e2 -> same_fixed e2 e3 -> same_fixed e1 e3.
Proof.
  unfold same_fixed. intros (?&?&?&?&?&?&?) (?&?&?&?&?&?&?). repeat split; congruence.
Qed.

Lemma update_blink_fixed (now : Z) (e e' : Eye F) (w w' : World) :
  update_blink now e w = Ok (e', w') -> same_fixed e e'.
Proof.
  unfold update_blink. intros H.
  destruct (negb _); [|inv_ret H; apply same_fixed_refl].
  destruct (_ <=? _).
  - destruct (EyeState_eqb _ ENBLINK); inv_ret H; repeat split.
  - inv_bind H. destruct (EyeState_eqb _ DEBLINK); inv_ret H; repeat split.
Qed.

Lemma start_blink_fixed (now d : Z) (e : Eye F) : same_fixed e (start_blink now d e).
Proof. unfold start_blink. destruct (EyeState_eqb _ _); repeat split. Qed.

Lemma update_fixed (now : Z) (face : option (F * F)) (c c' : EyeController F)
    (w w' : World) :
  update now face c w = Ok (c', w') ->
  eyes_rel same_fixed (eyes c) (eyes c') /\ mode c' = mode c /\
  display_manager c' = display_manager c.
Proof.
  intros H. split.
  - eapply update_rel; [| | | | | | |exact H].
    + apply same_fixed_refl.
    + apply same_fixed_trans.
    + intros d e. apply start_blink_fixed.
    + apply update_blink_fixed.
    + intros e e' wa wb He. apply (update_autonomous_others _ _ _ _ _ He).
    + intros tx ty e. repeat split.
    + intros e. repeat split.
  - unfold update in H. inv_bind H. inv_bind H.
    destruct (update_positions_next _ _ _ _ _ _ H) as [_ Hm].
    rewrite Hm, (update_blink_animation_mode _ _ _ _ _ Hstep0),
      (handle_blinks_mode _ _ _ _ _ Hstep).
    split; [reflexivity|].
    clear Hm. unfold handle_blinks in Hstep. unfold update_blink_animation in Hstep0.
    unfold update_positions in H.
    assert (H1 : display_manager a = display_manager c).
    { destruct (int_geb now (next_blink_time c)).
      - inv_bind Hstep. inv_bind Hstep. inv_ret Hstep. reflexivity.
      - inv_ret Hstep. reflexivity. }
    assert (H2 : display_manager a0 = display_manager a).
    { inv_bind Hstep0. inv_ret Hstep0. reflexivity. }
    rewrite <- H1, <- H2.
    destruct (String.eqb (mode a0) (EYE_MODES_item "TRACKING")).
    { inv_bind H. inv_bind H. inv_bind H. inv_ret H. reflexivity. }
    destruct (String.eqb (mode a0) (EYE_MODES_item "WANDERING")).
    { inv_bind H. inv_ret H. reflexivity. }
    destruct (String.eqb (mode a0) (EYE_MODES_item "REST")).
    { inv_bind H. inv_ret H. reflexivity. }
    inv_ret H. reflexivity.
Qed.

End TickFacts.

Section CallFacts.
Context {F : Type} {PF : PyFloat F}.

Lemma calls_fixed (cs : list (call (F := F))) (c c' : EyeController F) (w w' : World) :
  calls cs c w = Ok (c', w') ->
  eyes_rel same_fixed (eyes c) (eyes c') /\
  display_manager c' = display_manager c /\
  (mode c' = mode c \/ valid_mode (mode c')).
Proof.
  revert c w. induction cs as [|[now face|m] cs IH]; intros c w H; cbn [calls] in H.
  - inv_ret H. split; [apply eyes_rel_refl; apply same_fixed_refl|]. auto.
  - inv_bind H. rename a into c1.
    destruct (update_fixed _ _ _ _ _ _ Hstep) as (He1 & Hm1 & Hd1).
    destruct (IH _ _ H) as (He & Hd & Hm).
    split; [|split].
    + eapply eyes_rel_trans; [apply same_fixed_trans|exact He1|exact He].
    + congruence.
    + destruct Hm as [Hm|Hm]; [left; congruence|right; exact Hm].
  - inv_bind H. destruct a as [c1 r].
    destruct (IH _ _ H) as (He & Hd & Hm). cbn [fst] in *.
    destruct (existsb (String.eqb m) (values EYE_MODES)) eqn:E.
    + apply valid_mode_dec in E. rewrite (set_mode_valid m c w E) in Hstep.
      apply Ok_inj in Hstep. destruct Hstep as [Hc _]. injection Hc as <- _.
      split; [exact He|]. split; [exact Hd|].
      destruct Hm as [Hm|Hm]; [|right; exact Hm].
      right. rewrite Hm. exact E.
    + assert (Hn : ~ valid_mode m)
        by (intros Hv; apply valid_mode_dec in Hv; congruence).
      rewrite (set_mode_invalid m c w Hn) in Hstep.
      apply Ok_inj in Hstep. destruct Hstep as [Hc _]. injection Hc as <- _.
      split; [exact He|]. split; [exact Hd|exact Hm].
Qed.

Lemma stays_open_trans (e1 e2 e3 : Eye F) :
  stays_open e1 e2 -> stays_open e2 e3 -> stays_open e1 e3.
Proof.
  unfold stays_open. intros H12 H23 H1. destruct (H12 H1) as [H2 Hf2].
  destruct (H23 H2) as [H3 Hf3]. split; [exact H3|].
  destruct Hf3 as [Hf3|Hf3]; [|right; exact Hf3].
  destruct Hf2 as [Hf2|Hf2]; [left|right]; congruence.
Qed.

Lemma quiet_tick (now : Z) (face : option (F * F)) (c c' : EyeController F) (w w' : World) :
  int_geb now (next_blink_time c) = false ->
  update now face c w = Ok (c', w') ->
  next_blink_time c' = next_blink_time c /\ eyes_rel stays_open (eyes c) (eyes c').
Proof.
  intros Hq H. unfold update in H. inv_bind H. rename a into c1.
  unfold handle_blinks in Hstep. rewrite Hq in Hstep. inv_ret Hstep.
  inv_bind H. rename a into c2.
  destruct (update_blink_animation_next _ _ _ _ _ Hstep) as [Hn2 _].
  destruct (update_positions_next _ _ _ _ _ _ H) as [Hn3 _].
  split; [congruence|].
  apply eyes_rel_trans with (P := stays_open) (Q := stays_open) (d2 := eyes c2);
    [apply stays_open_trans| |].
  - eapply update_blink_animation_rel; [|exact Hstep].
    intros e e' wa wb He Hs. rewrite (update_blink_open now e wa Hs) in He.
    apply Ok_inj in He. destruct He as [<- _]. auto.
  - eapply update_positions_rel; [| | | | |exact H].
    + intros e Hs. auto.
    + apply stays_open_trans.
    + intros e e' wa wb He Hs.
      destruct (update_autonomous_others _ _ _ _ _ He) as [(Hb1 & _ & _ & Hb4) _].
      split; [congruence|left; exact Hb4].
    + intros tx ty e Hs. split; [exact Hs|left; reflexivity].
    + intros _ e Hs. split; [exact Hs|right; reflexivity].
Qed.

Lemma quiet_ticks (inputs : list (Z * option (F * F))) (c c' : EyeController F)
    (w w' : World) :
  Forall (fun i => int_geb (fst i) (next_blink_time c) = false) inputs ->
  updates inputs c w = Ok (c', w') ->
  next_blink_time c' = next_blink_time c /\ eyes_rel stays_open (eyes c) (eyes c').
Proof.
  revert c w. induction inputs as [|[now face] inputs IH]; intros c w Hq H; cbn in H.
  - inv_ret H. split; [reflexivity|]. apply eyes_rel_refl. intros e Hs. auto.
  - inversion Hq as [|i l Hq1 Hq2]; subst. cbn [fst] in Hq1.
    inv_bind H. rename a into c1.
    destruct (quiet_tick _ _ _ _ _ _ Hq1 Hstep) as [Hn1 Hr1].
    rewrite <- Hn1 in Hq2. destruct (IH _ _ Hq2 H) as [Hn Hr].
    split; [congruence|].
    eapply eyes_rel_trans; [apply stays_open_trans|exact Hr1|exact Hr].
Qed.

End CallFacts.

(** X7: through any sequence of [update] and [set_mode] calls that returns,
    the controller keeps the same eyes under the same keys in the same
    order, no eye's name, display, target, pupil factor or lid factors
    changes, the display manager is the same, and the mode is either the
    one it started with or one of the three valid modes. *)
Theorem calls_keep_identity :
  forall (F : Type) (PF : PyFloat F) (cs : list (call (F := F)))
         (c c' : EyeController F) (w w' : World),
    calls cs c w = Ok (c', w') ->
    map fst (eyes c') = map fst (eyes c) /\
    eyes_rel same_fixed (eyes c) (eyes c') /\
    display_manager c' = display_manager c /\
    (mode c' = mode c \/ valid_mode (mode c')).
Proof.
  intros F PF cs c c' w w' H. destruct (calls_fixed cs c c' w w' H) as (He & Hd & Hm).
  split; [eapply eyes_rel_keys; exact He|]. split; [exact He|]. split; assumption.
Qed.

Lemma calls_keep_identity_witness :
  exists (c c' : EyeController float) (w w' : World),
    controller0 tape0 = Ok (c, w) /\
    calls [Update 10000000 None; SetMode "wandering"; SetMode "sleeping";
           Update 10050000 (Some (0.5, -0.5)%float)] c w = Ok (c', w') /\
    map fst (eyes c') = ["left"; "right"; "middle"] /\
    eyes_rel same_fixed (eyes c) (eyes c') /\
    (mode c' = mode c \/ valid_mode (mode c')).
Proof.
  destruct (controller0 (F := float) tape0) as [[c w]|] eqn:Hc;
    [|vm_compute in Hc; discriminate Hc].
  destruct (calls [Update 10000000 None; SetMode "wandering"; SetMode "sleeping";
                   Update 10050000 (Some (0.5, -0.5)%float)] c w)
    as [[c' w']|] eqn:Hrun.
  - exists c, c', w, w'.
    destruct (calls_keep_identity float binary64 _ c c' w w' Hrun) as (Hk & He & _ & Hm).
    split; [reflexivity|]. split; [exact Hrun|]. split; [|split; assumption].
    rewrite Hk. vm_compute in Hc. apply Ok_inj in Hc. destruct Hc as [<- _]. reflexivity.
  - vm_compute in Hc. apply Ok_inj in Hc. destruct Hc as [<- <-].
    vm_compute in Hrun. discriminate Hrun.
Defined.

(** X8: after a tick in rest mode every eye is rendered closed, and an eye
    whose blink state is open stays that way: whatever mode is set next,
    through all the following ticks on which no blink is due its blink
    state stays open and its blink factor stays 1.0. *)
Theorem eyes_stay_closed_after_rest :
  forall (F : Type) (PF : PyFloat F) (t : Z) (face : option (F * F)) (m : string)
         (inputs : list (Z * option (F * F)))
         (c c1 c2 c3 : EyeController F) (r : unit) (w w1 w2 w3 : World),
    mode c = "rest" ->
    update t face c w = Ok (c1, w1) ->
    set_mode m c1 w1 = Ok ((c2, r), w2) ->
    Forall (fun i => int_geb (fst i) (next_blink_time c2) = false) inputs ->
    updates inputs c2 w2 = Ok (c3, w3) ->
    all_eyes (fun e => blink_factor e = of_int 1) (eyes c1) /\
    eyes_rel (fun e1 e3 =>
                blink_state e1 = NOBLINK ->
                blink_state e3 = NOBLINK /\ blink_factor e3 = of_int 1)
             (eyes c1) (eyes c3).
Proof.
  intros F PF t face m inputs c c1 c2 c3 r w w1 w2 w3 Hm H1 Hset Hq H3.
  destruct (rest_tick _ _ _ _ _ _ Hm H1) as [_ Hrel1].
  assert (Hclosed : all_eyes (fun e => blink_factor e = of_int 1) (eyes c1)).
  { unfold all_eyes. clear - Hrel1.
    induction Hrel1 as [|p p' d d' [_ [_ Hf]] _ IH]; constructor; auto. }
  split; [exact Hclosed|].
  assert (He2 : eyes c2 = eyes c1).
  { destruct (existsb (String.eqb m) (values EYE_MODES)) eqn:E.
    - apply valid_mode_dec in E. rewrite (set_mode_valid m c1 w1 E) in Hset.
      apply Ok_inj in Hset. destruct Hset as [Hc _]. injection Hc as <- _. reflexivity.
    - assert (Hn : ~ valid_mode m)
        by (intros Hv; apply valid_mode_dec in Hv; congruence).
      rewrite (set_mode_invalid m c1 w1 Hn) in Hset.
      apply Ok_inj in Hset. destruct Hset as [Hc _]. injection Hc as <- _. reflexivity. }
  destruct (quiet_ticks _ _ _ _ _ Hq H3) as [_ Hrel]. rewrite He2 in Hrel.
  clear - Hrel Hclosed. unfold all_eyes in Hclosed. revert Hclosed.
  induction Hrel as [|p p' d d' [Hk HP] _ IH]; intros Hclosed; [constructor|].
  inversion Hclosed as [|p0 d0 Hp Hd]; subst. constructor; [|apply IH; exact Hd].
  split; [exact Hk|]. intros Hs. destruct (HP Hs) as [Hs' Hf].
  split; [exact Hs'|]. destruct Hf; congruence.
Qed.

Lemma eyes_stay_closed_after_rest_witness :
  exists (c c1 c2 c3 : EyeController float) (w w1 w2 w3 : World),
    resting0 tape0 = Ok (c, w) /\
    update 2000000 None c w = Ok (c1, w1) /\
    set_mode "tracking" c1 w1 = Ok ((c2, tt), w2) /\
    updates [(2010000, None); (2020000, Some (0.5, -0.5)%float)] c2 w2 = Ok (c3, w3) /\
    mode c3 = "tracking" /\
    eyes_rel (fun e1 e3 =>
                blink_state e1 = NOBLINK ->
                blink_state e3 = NOBLINK /\ blink_factor e3 = 1%float)
             (eyes c1) (eyes c3).
Proof.
  destruct (resting0 tape0) as [[c w]|] eqn:Hc; [|vm_compute in Hc; discriminate Hc].
  destruct (update 2000000 None c w) as [[c1 w1]|] eqn:H1.
  - destruct (set_mode "tracking" c1 w1) as [[[c2 []] w2]|] eqn:H2.
    + destruct (updates [(2010000, None); (2020000, Some (0.5, -0.5)%float)] c2 w2)
        as [[c3 w3]|] eqn:H3.
      * exists c, c1, c2, c3, w, w1, w2, w3.
        assert (Hm : mode c = "rest").
        { vm_compute in Hc. apply Ok_inj in Hc. destruct Hc as [<- _]. reflexivity. }
        assert (Hq : Forall (fun i => int_geb (fst i) (next_blink_time c2) = false)
                            [(2010000, None); (2020000, Some (0.5, -0.5)%float)]).
        { vm_compute in Hc. apply Ok_inj in Hc. destruct Hc as [<- <-].
          vm_compute in H1. apply Ok_inj in H1. destruct H1 as [<- <-].
          vm_compute in H2. apply Ok_inj in H2. destruct H2 as [Hc2 _].
          injection Hc2 as <-. repeat constructor. }
        destruct (eyes_stay_closed_after_rest float binary64 _ _ _ _ _ _ _ _ _ _ _ _ _
                    Hm H1 H2 Hq H3) as [_ Hrel].
        split; [reflexivity|]. split; [exact H1|]. split; [exact H2|].
        split; [exact H3|]. split; [|exact Hrel].
        vm_compute in Hc. apply Ok_inj in Hc. destruct Hc as [<- <-].
        vm_compute in H1. apply Ok_inj in H1. destruct H1 as [<- <-].
        vm_compute in H2. apply Ok_inj in H2. destruct H2 as [Hc2 Hw2].
        injection Hc2 as <-. subst w2.
        vm_compute in H3. apply Ok_inj in H3. destruct H3 as [<- _]. reflexivity.
      * exfalso. vm_compute in Hc. apply Ok_inj in Hc. destruct Hc as [<- <-].
        vm_compute in H1. apply Ok_inj in H1. destruct H1 as [<- <-].
        vm_compute in H2. apply Ok_inj in H2. destruct H2 as [Hc2 Hw2].
        injection Hc2 as <-. subst w2. vm_compute in H3. discriminate H3.
    + exfalso. vm_compute in Hc. apply Ok_inj in Hc. destruct Hc as [<- <-].
      vm_compute in H1. apply Ok_inj in H1. destruct H1 as [<- <-].
      vm_compute in H2. discriminate H2.
  - exfalso. vm_compute in Hc. apply Ok_inj in Hc. destruct Hc as [<- <-].
    vm_compute in H1. discriminate H1.
Defined.

(** X9: a tick on which the blink fires at [now] leaves the next blink
    time at an integer between [now + 4108000] and [now + 8216000], so the
    scheduler stays idle on every tick before [now + 4108000]; a tick on
    which no blink is due leaves the next blink time as it was. *)
Theorem blinks_are_spaced :
  forall (F : Type) (PF : PyFloat F) (now : Z) (face : option (F * F))
         (c c' : EyeController F) (w w' : World),
    update now face c w = Ok (c', w') ->
    (int_geb now (next_blink_time c) = true ->
     exists n : Z,
       next_blink_time c' = Int n /\
       now + 4108000 <= n <= now + 8216000 /\
       forall t : Z, t < now + 4108000 -> int_geb t (next_blink_time c') = false) /\
    (int_geb now (next_blink_time c) = false ->
     next_blink_time c' = next_blink_time c).
Proof.
  intros F PF now face c c' w w' H. split.
  - intros Hdue. pose proof (handle_blinks_due now c w Hdue) as Hrun. cbv zeta in Hrun.
    unfold update in H. rewrite (bind_step _ _ _ _ _ Hrun) in H.
    inv_bind H.
    destruct (update_blink_animation_next _ _ _ _ _ Hstep) as [Hn1 _].
    destruct (update_positions_next _ _ _ _ _ _ H) as [Hn2 _].
    pose proof (Z.mod_pos_bound (tape w (cursor w))
                  (BLINK_MAX_DURATION - BLINK_MIN_DURATION + 1)) as Hd.
    pose proof (Z.mod_pos_bound (tape (advance w) (cursor (advance w)))
                  (BLINK_INTERVAL_MIN * 2 - BLINK_INTERVAL_MIN + 1)) as Hk.
    unfold BLINK_MIN_DURATION, BLINK_MAX_DURATION, BLINK_INTERVAL_MIN in *.
    eexists. split; [rewrite Hn2, Hn1; reflexivity|]. split; [lia|].
    intros t Ht. rewrite Hn2, Hn1. cbn [next_blink_time set_next_blink_time int_geb].
    apply Z.leb_gt. lia.
  - intros Hq. apply (quiet_tick _ _ _ _ _ _ Hq H).
Qed.

Lemma blinks_are_spaced_witness :
  exists (c c' : EyeController float) (w w' : World) (n : Z),
    controller0 tape0 = Ok (c, w) /\
    update 10000000 None c w = Ok (c', w') /\
    next_blink_time c' = Int n /\ 14108000 <= n <= 18216000 /\
    int_geb 14000000 (next_blink_time c') = false.
Proof.
  destruct (controller0 (F := float) tape0) as [[c w]|] eqn:Hc;
    [|vm_compute in Hc; discriminate Hc].
  destruct (update 10000000 None c w) as [[c' w']|] eqn:H.
  - assert (Hdue : int_geb 10000000 (next_blink_time c) = true).
    { vm_compute in Hc. apply Ok_inj in Hc. destruct Hc as [<- _]. reflexivity. }
    destruct (proj1 (blinks_are_spaced float binary64 _ _ _ _ _ _ H) Hdue)
      as (n & Hn & Hr & Hidle).
    exists c, c', w, w', n.
    split; [reflexivity|]. split; [exact H|]. split; [exact Hn|]. split; [exact Hr|].
    apply Hidle. lia.
  - exfalso. vm_compute in Hc. apply Ok_inj in Hc. destruct Hc as [<- <-].
    vm_compute in H. discriminate H.
Defined.

(** ** Over the reals: the controller never raises *)

Section ControllerTotal.

Lemma for_values_total (method : Eye R -> M (Eye R)) (d : list (string * Eye R))
    (w : World) :
  (forall e w, eye_ok e -> exists e' w', method e w = Ok (e', w') /\ eye_ok e') ->
  all_eyes eye_ok d ->
  exists d' w', for_values method d w = Ok (d', w') /\
                all_eyes eye_ok d' /\ map fst d' = map fst d.
Proof.
  intros Hm Hd. revert w. induction Hd as [|[k e] d He _ IH]; intros w.
  - exists [], w. split; [reflexivity|]. split; [constructor|reflexivity].
  - destruct (Hm e w He) as (e' & w1 & Hrun & He').
    destruct (IH w1) as (d' & w2 & Hrun' & Hd' & Hk).
    exists ((k, e') :: d'), w2. split; [|split].
    + cbn [for_values]. rewrite (bind_step _ _ _ _ _ Hrun).
      rewrite (bind_step _ _ _ _ _ Hrun'). reflexivity.
    + constructor; assumption.
    + cbn. congruence.
Qed.

Lemma at_key_total (key : string) (method : Eye R -> M (Eye R))
    (d : list (string * Eye R)) (w : World) :
  (forall e w, eye_ok e -> exists e' w', method e w = Ok (e', w') /\ eye_ok e') ->
  all_eyes eye_ok d -> In key (map fst d) ->
  exists d' w', at_key key method d w = Ok (d', w') /\
                all_eyes eye_ok d' /\ map fst d' = map fst d.
Proof.
  intros Hm Hd. induction Hd as [|[k e] d He Hd IH]; intros Hin.
  - destruct Hin.
  - cbn [at_key]. destruct (String.eqb k key) eqn:E.
    + destruct (Hm e w He) as (e' & w1 & Hrun & He').
      exists ((k, e') :: d), w1. split; [|split].
      * rewrite (bind_step _ _ _ _ _ Hrun). reflexivity.
      * constructor; assumption.
      * reflexivity.
    + destruct IH as (d' & w1 & Hrun & Hd' & Hk).
      * destruct Hin as [Hin|Hin]; [|exact Hin].
        cbn in Hin. subst k. rewrite String.eqb_refl in E. discriminate E.
      * exists ((k, e) :: d'), w1. split; [|split].
        -- rewrite (bind_step _ _ _ _ _ Hrun). reflexivity.
        -- constructor; assumption.
        -- cbn. congruence.
Qed.

Lemma update_autonomous_ok (now : Z) (e : Eye R) (w : World) :
  eye_ok e ->
  exists e' w', update_autonomous now e w = Ok (e', w') /\ eye_ok e'.
Proof.
  intros [Hb Hmv].
  destruct (update_autonomous_total_real now e w) as (e' & w' & Hrun).
  - intros (Hm & Hd & _). specialize (Hmv Hm). lia.
  - exists e', w'. split; [exact Hrun|]. split.
    + destruct (update_autonomous_others _ _ _ _ _ Hrun) as [(Hs & _ & Hd & _) _].
      unfold blink_ready. rewrite Hs, Hd. exact Hb.
    + eapply update_autonomous_move_ready; eassumption.
Qed.

Lemma same_motion_move_ready (e e' : Eye R) :
  same_motion e e' -> move_ready e -> move_ready e'.
Proof.
  intros (_&_&_&_&_&Hd&Hm&_) He. unfold move_ready. rewrite Hd, Hm. exact He.
Qed.

Lemma update_positions_total (now : Z) (face : option (R * R)) (c : EyeController R)
    (w : World) :
  well_formed c ->
  exists c' w', update_positions now face c w = Ok (c', w') /\
                well_formed c' /\ mode c' = mode c.
Proof.
  intros [Hkeys Hok]. unfold three_eyes in Hkeys. unfold update_positions.
  assert (Hauto := fun e w => update_autonomous_ok now e w).
  destruct (String.eqb (mode c) (EYE_MODES_item "TRACKING")).
  { assert (Hmid : exists d1 w1,
               match face with
               | Some (x, y) =>
                   at_key "middle" (fun eye => ret (update_tracking x y eye)) (eyes c)
               | None => at_key "middle" (update_autonomous now) (eyes c)
               end w = Ok (d1, w1) /\ all_eyes eye_ok d1 /\ map fst d1 = map fst (eyes c)).
    { destruct face as [[x y]|].
      - apply at_key_total; [|exact Hok|rewrite Hkeys; cbn; auto].
        intros e w0 [Hb Hmv]. exists (update_tracking x y e), w0.
        split; [reflexivity|]. split; [exact Hb|exact Hmv].
      - apply at_key_total; [exact Hauto|exact Hok|rewrite Hkeys; cbn; auto]. }
    destruct Hmid as (d1 & w1 & H1 & Hok1 & Hk1).
    destruct (at_key_total "left" (update_autonomous now) d1 w1 Hauto Hok1)
      as (d2 & w2 & H2 & Hok2 & Hk2); [rewrite Hk1, Hkeys; cbn; auto|].
    destruct (at_key_total "right" (update_autonomous now) d2 w2 Hauto Hok2)
      as (d3 & w3 & H3 & Hok3 & Hk3); [rewrite Hk2, Hk1, Hkeys; cbn; auto|].
    exists (set_eyes d3 c), w3. split; [|split].
    - rewrite (bind_step _ _ _ _ _ H1). rewrite (bind_step _ _ _ _ _ H2).
      rewrite (bind_step _ _ _ _ _ H3). reflexivity.
    - split; [|exact Hok3]. unfold three_eyes. cbn [eyes set_eyes]. congruence.
    - reflexivity. }
  destruct (String.eqb (mode c) (EYE_MODES_item "WANDERING")).
  { destruct (for_values_total (update_autonomous now) (eyes c) w Hauto Hok)
      as (d1 & w1 & H1 & Hok1 & Hk1).
    exists (set_eyes d1 c), w1. split; [|split].
    - rewrite (bind_step _ _ _ _ _ H1). reflexivity.
    - split; [|exact Hok1]. unfold three_eyes. cbn [eyes set_eyes]. congruence.
    - reflexivity. }
  destruct (String.eqb (mode c) (EYE_MODES_item "REST")).
  { exists (set_eyes (map (fun '(k, eye) => (k, set_blink_factor (of_int 1) eye)) (eyes c)) c),
      w.
    split; [|split].
    - erewrite bind_step by apply for_values_pure. reflexivity.
    - split.
      + unfold three_eyes. cbn [eyes set_eyes]. rewrite map_map, <- Hkeys.
        apply map_ext. intros [k e]. reflexivity.
      + cbn [eyes set_eyes]. unfold all_eyes in *. rewrite Forall_map.
        eapply Forall_impl; [|exact Hok]. intros [k e] He. exact He.
    - reflexivity. }
  exists c, w. split; [reflexivity|]. split; [split; assumption|reflexivity].
Qed.

Lemma update_total (now : Z) (face : option (R * R)) (c : EyeController R) (w : World) :
  well_formed c ->
  exists c' w', update now face c w = Ok (c', w') /\ well_formed c'.
Proof.
  intros [Hkeys Hok].
  assert (Hb : all_eyes blink_ready (eyes c)).
  { unfold all_eyes in *. eapply Forall_impl; [|exact Hok]. intros p [H _]. exact H. }
  destruct (handle_blinks_total now c w Hb) as (c1 & w1 & H1 & Hb1).
  pose proof (handle_blinks_eyes _ _ _ _ _ H1) as Hrel1.
  destruct (update_blinks_total now (eyes c1) w1 Hb1) as (d2 & H2 & Hb2).
  assert (H2' : update_blink_animation now c1 w1 = Ok (set_eyes d2 c1, w1)).
  { unfold update_blink_animation. rewrite (bind_step _ _ _ _ _ H2). reflexivity. }
  destruct (update_blink_animation_next _ _ _ _ _ H2') as [_ Hrel2].
  cbn [eyes set_eyes] in Hrel2.
  assert (Hrel : eyes_rel same_motion (eyes c) d2).
  { eapply eyes_rel_trans; [apply same_motion_trans|exact Hrel1|exact Hrel2]. }
  assert (Hwf2 : well_formed (set_eyes d2 c1)).
  { split.
    - unfold three_eyes. cbn [eyes set_eyes]. rewrite (eyes_rel_keys _ _ _ Hrel).
      exact Hkeys.
    - cbn [eyes set_eyes].
      assert (Hmv : all_eyes (fun e => move_ready e) d2).
      { apply (eyes_rel_all (fun e => move_ready e) (fun e => move_ready e) (eyes c) d2).
        - eapply eyes_rel_weaken; [|exact Hrel]. intros e e'. apply same_motion_move_ready.
        - unfold all_eyes in *. eapply Forall_impl; [|exact Hok]. intros p [_ H]. exact H. }
      unfold all_eyes in *. clear - Hb2 Hmv. revert Hmv.
      induction Hb2 as [|p d Hp _ IH]; intros Hmv; [constructor|].
      inversion Hmv as [|p0 d0 Hq Hd]; subst.
      constructor; [split; [exact Hp|exact Hq]|apply IH; exact Hd]. }
  destruct (update_positions_total now face (set_eyes d2 c1) w1 Hwf2)
    as (c3 & w3 & H3 & Hwf3 & _).
  exists c3, w3. split; [|exact Hwf3].
  unfold update. rewrite (bind_step _ _ _ _ _ H1). cbv beta.
  rewrite (bind_step _ _ _ _ _ H2'). exact H3.
Qed.

Lemma calls_total (cs : list (call (F := R))) (c : EyeController R) (w : World) :
  well_formed c ->
  exists c' w', calls cs c w = Ok (c', w') /\ well_formed c'.
Proof.
  revert c w. induction cs as [|[now face|m] cs IH]; intros c w Hwf.
  - exists c, w. split; [reflexivity|exact Hwf].
  - destruct (update_total now face c w Hwf) as (c1 & w1 & H1 & Hwf1).
    destruct (IH c1 w1 Hwf1) as (c' & w' & H & Hwf').
    exists c', w'. split; [|exact Hwf']. cbn [calls].
    rewrite (bind_step _ _ _ _ _ H1). exact H.
  - destruct (existsb (String.eqb m) (values EYE_MODES)) eqn:E.
    + apply valid_mode_dec in E.
      destruct (IH (set_mode_attr m c) (printed ("Eye mode changed to: " ++ m) w))
        as (c' & w' & H & Hwf'); [exact Hwf|].
      exists c', w'. split; [|exact Hwf']. cbn [calls].
      rewrite (bind_step _ _ _ _ _ (set_mode_valid m c w E)). exact H.
    + assert (Hn : ~ valid_mode m)
        by (intros Hv; apply valid_mode_dec in Hv; congruence).
      destruct (IH c (printed ("Invalid mode: " ++ m) w)) as (c' & w' & H & Hwf');
        [exact Hwf|].
      exists c', w'. split; [|exact Hwf']. cbn [calls].
      rewrite (bind_step _ _ _ _ _ (set_mode_invalid m c w Hn)). exact H.
Qed.

Lemma init_well_formed (dm : list (string * GC9A01A)) (t1 t2 t3 t4 : R) (w : World) :
  exists c w', EyeController_init dm t1 t2 t3 t4 w = Ok (c, w') /\ well_formed c /\
               mode c = "tracking".
Proof.
  unfold EyeController_init.
  eexists. eexists. split; [|split].
  - erewrite bind_step by (apply randint_Ok; unfold BLINK_INTERVAL_MIN; lia).
    cbv beta zeta. erewrite bind_step by reflexivity. reflexivity.
  - split; [reflexivity|].
    repeat constructor; cbn; intros H; try discriminate H; exfalso; apply H; reflexivity.
  - reflexivity.
Qed.

End ControllerTotal.

(** X10: over the reals, the controller that [EyeController.__init__]
    builds never raises: the constructor returns, in tracking mode, and
    every sequence of [update] and [set_mode] calls on it returns, at any
    clock readings and with any face positions and mode strings.  The same
    holds from any controller that has the three eyes and no eye in a blink
    or a move of duration zero. *)
Theorem calls_never_raise :
  (forall (dm : list (string * GC9A01A)) (t1 t2 t3 t4 : R) (w : World)
          (cs : list (call (F := R))),
      exists (c c' : EyeController R) (w1 w2 : World),
        EyeController_init dm t1 t2 t3 t4 w = Ok (c, w1) /\ mode c = "tracking" /\
        calls cs c w1 = Ok (c', w2)) /\
  (forall (cs : list (call (F := R))) (c : EyeController R) (w : World),
      well_formed c ->
      exists (c' : EyeController R) (w' : World),
        calls cs c w = Ok (c', w') /\ well_formed c').
Proof.
  split.
  - intros dm t1 t2 t3 t4 w cs.
    destruct (init_well_formed dm t1 t2 t3 t4 w) as (c & w1 & Hinit & Hwf & Hm).
    destruct (calls_total cs c w1 Hwf) as (c' & w2 & Hrun & _).
    exists c, c', w1, w2. split; [exact Hinit|]. split; [exact Hm|exact Hrun].
  - intros cs c w Hwf. apply calls_total. exact Hwf.
Qed.

Lemma calls_never_raise_witness :
  exists (c c' : EyeController R) (w1 w2 : World),
    EyeController_init [] 0%R 0%R 0%R 0%R tape0 = Ok (c, w1) /\ mode c = "tracking" /\
    calls [Update 5 None; SetMode "wandering"; SetMode "sleeping";
           Update 0 (Some (2, -3)%R)] c w1 = Ok (c', w2).
Proof.
  apply (proj1 calls_never_raise).
Defined.

(** ** Over the reals: the blink factor stays between 0.0 and 1.0 *)

Section BlinkRange.
Local Open Scope R_scope.

Lemma ratio_unit (a b : Z) : (0 <= a < b)%Z -> 0 <= IZR a / IZR b <= 1.
Proof.
  intros [Ha Hb]. apply IZR_le in Ha. assert (Hab : IZR a < IZR b) by (apply IZR_lt; lia).
  assert (Hpos : 0 < IZR b) by lra.
  split.
  - apply Rmult_le_pos; [exact Ha|]. left. apply Rinv_0_lt_compat. exact Hpos.
  - apply Rmult_le_reg_r with (IZR b); [exact Hpos|].
    unfold Rdiv. rewrite Rmult_assoc, Rinv_l by lra. lra.
Qed.

Lemma blink_timed_later (t now : Z) (e : Eye R) :
  (t <= now)%Z -> blink_timed t e -> blink_timed now e.
Proof.
  intros Ht [Hs Hf]. split; [|exact Hf]. intros Hb. specialize (Hs Hb). lia.
Qed.

Lemma start_blink_timed (t now d : Z) (e : Eye R) :
  (t <= now)%Z -> blink_timed t e -> blink_timed now (start_blink now d e).
Proof.
  intros Ht He. unfold start_blink. destruct (EyeState_eqb (blink_state e) NOBLINK).
  - destruct He as [_ Hf]. split; [|exact Hf]. intros _. cbn. lia.
  - eapply blink_timed_later; eassumption.
Qed.

Lemma update_blink_timed (now : Z) (e e' : Eye R) (w w' : World) :
  update_blink now e w = Ok (e', w') -> blink_timed now e -> blink_timed now e'.
Proof.
  intros H [Hs Hf]. unfold blink_timed, blink_started, unit_blink_factor in *.
  destruct (blink_state e) eqn:Hb.
  - rewrite (update_blink_open now e w Hb) in H. apply Ok_inj in H.
    destruct H as [<- _]. rewrite Hb. split; [congruence|exact Hf].
  - assert (Hst : (blink_start_time e <= now)%Z) by (apply Hs; discriminate).
    destruct (Z.le_gt_cases (blink_duration e) (now - blink_start_time e)) as [Hle|Hgt].
    + rewrite (update_blink_closed now e w Hb Hle) in H. apply Ok_inj in H.
      destruct H as [<- _]. cbn. split; [intros _; lia|lra].
    + rewrite (update_blink_closing now e w Hb) in H by lia. apply Ok_inj in H.
      destruct H as [<- _]. cbn. split; [intros _; exact Hst|].
      apply ratio_unit. lia.
  - assert (Hst : (blink_start_time e <= now)%Z) by (apply Hs; discriminate).
    destruct (Z.le_gt_cases (blink_duration e) (now - blink_start_time e)) as [Hle|Hgt].
    + rewrite (update_blink_opened now e w Hb Hle) in H. apply Ok_inj in H.
      destruct H as [<- _]. cbn. split; [congruence|lra].
    + rewrite (update_blink_opening now e w Hb) in H by lia. apply Ok_inj in H.
      destruct H as [<- _]. cbn. split; [intros _; exact Hst|].
      pose proof (ratio_unit (now - blink_start_time e) (blink_duration e)
                    ltac:(lia)) as Hq.
      lra.
Qed.

Lemma update_timed (t now : Z) (face : option (R * R)) (c c' : EyeController R)
    (w w' : World) :
  (t <= now)%Z -> all_eyes (blink_timed t) (eyes c) ->
  update now face c w = Ok (c', w') -> all_eyes (blink_timed now) (eyes c').
Proof.
  intros Ht Hall H. unfold update in H.
  inv_bind H. rename a into c1. inv_bind H. rename a into c2.
  assert (H1 : all_eyes (blink_timed now) (eyes c1)).
  { apply (eyes_rel_all (blink_timed t) (blink_timed now) (eyes c) (eyes c1)); [|exact Hall].
    eapply handle_blinks_rel; [| |exact Hstep].
    - intros e. apply blink_timed_later. exact Ht.
    - intros d e _. apply start_blink_timed. exact Ht. }
  assert (H2 : all_eyes (blink_timed now) (eyes c2)).
  { apply (eyes_rel_all (blink_timed now) (blink_timed now) (eyes c1) (eyes c2));
      [|exact H1].
    eapply update_blink_animation_rel; [|exact Hstep0].
    intros e e' wa wb He. eapply update_blink_timed. exact He. }
  apply (eyes_rel_all (blink_timed now) (blink_timed now) (eyes c2) (eyes c')); [|exact H2].
  eapply update_positions_rel; [| | | | |exact H].
  - intros e He. exact He.
  - intros e1 e2 e3 H12 H23 He. auto.
  - intros e e' wa wb He [Hs Hf].
    destruct (update_autonomous_others _ _ _ _ _ He) as [(Hb1 & Hb2 & _ & Hb4) _].
    unfold blink_timed, blink_started, unit_blink_factor. rewrite Hb1, Hb2, Hb4.
    split; assumption.
  - intros tx ty e He. exact He.
  - intros _ e [Hs Hf]. split; [exact Hs|]. unfold unit_blink_factor. cbn. lra.
Qed.

Lemma updates_timed (t : Z) (inputs : list (Z * option (R * R))) (c c' : EyeController R)
    (w w' : World) :
  clock_from t inputs -> all_eyes (blink_timed t) (eyes c) ->
  updates inputs c w = Ok (c', w') ->
  all_eyes unit_blink_factor (eyes c').
Proof.
  revert t c w. induction inputs as [|[now face] inputs IH]; intros t c w Hclock Hall H;
    cbn in H.
  - inv_ret H. unfold all_eyes in *. eapply Forall_impl; [|exact Hall].
    intros p [_ Hf]. exact Hf.
  - destruct Hclock as [Ht Hclock]. inv_bind H. rename a into c1.
    eapply (IH now c1); [exact Hclock| |exact H].
    eapply update_timed; eassumption.
Qed.

End BlinkRange.

(** X11: over the reals, when the clock readings of successive [update]
    calls never go back, every eye's blink factor stays between 0.0 and
    1.0, starting from eyes whose factor is in that range and whose blinks
    in progress started no later than the first reading; freshly built eyes
    are such eyes at any time. *)
Theorem blink_factor_in_unit_interval :
  (forall (t : Z) (inputs : list (Z * option (R * R))) (c c' : EyeController R)
          (w w' : World),
      clock_from t inputs ->
      all_eyes (fun e => blink_started t e /\ unit_blink_factor e) (eyes c) ->
      updates inputs c w = Ok (c', w') ->
      all_eyes unit_blink_factor (eyes c')) /\
  (forall (n : string) (d : option GC9A01A) (t0 : R) (t : Z),
      blink_started t (Eye_init n d t0) /\ unit_blink_factor (Eye_init n d t0)).
Proof.
  split.
  - intros t inputs c c' w w' Hclock Hall H. eapply updates_timed; eassumption.
  - intros n d t0 t. split.
    + intros H. exfalso. apply H. reflexivity.
    + unfold unit_blink_factor. cbn. lra.
Qed.

Lemma blink_factor_in_unit_interval_witness :
  exists (c' : EyeController R) (w' : World),
    updates [(5, None); (5, None); (60000, None); (200000, None)] one_eyed tape0
    = Ok (c', w') /\
    all_eyes unit_blink_factor (eyes c').
Proof.
  destruct (rest_ticks_total
              [(5, None); (5, None); (60000, None); (200000, None)] one_eyed tape0)
    as (c' & w' & Hrun).
  - reflexivity.
  - repeat constructor. intros H. exfalso. apply H. reflexivity.
  - exists c', w'. split; [exact Hrun|].
    apply (proj1 blink_factor_in_unit_interval 0
             [(5, None); (5, None); (60000, None); (200000, None)] one_eyed c' tape0 w');
      [| |exact Hrun].
    + cbn. lia.
    + constructor; [|constructor]. split.
      * intros H. exfalso. apply H. reflexivity.
      * unfold unit_blink_factor. cbn. lra.
Defined.

(** ** main.py: the mode of the skull and the mode of its eyes *)

Section SkullFacts.
Context {F : Type} {PF : PyFloat F}.
Context {FaceTracker AudioManager LEDController : Type}.
Let Skull : Type := @main.SkullController F FaceTracker AudioManager LEDController.

Lemma last_cons_default {A} (a : A) (l : list A) (d d' : A) :
  last (a :: l) d = last (a :: l) d'.
Proof.
  revert a. induction l as [|b l IH]; intros a; [reflexivity|].
  change (last (b :: l) d = last (b :: l) d'). apply IH.
Qed.

Lemma skull_set_mode_same (m : string) (s : Skull) (w : World) :
  m = main.current_mode s -> main.set_mode m s w = Ok (s, w).
Proof. intros ->. unfold main.set_mode. rewrite String.eqb_refl. reflexivity. Qed.

Lemma skull_set_mode_valid (m : string) (s : Skull) (w : World) :
  m <> main.current_mode s -> valid_mode m ->
  main.set_mode m s w
  = Ok (main.set_eye_controller (set_mode_attr m (main.eye_controller s))
          (main.set_current_mode m s),
        printed ("Mode changed to: " ++ m) (printed ("Eye mode changed to: " ++ m) w)).
Proof.
  intros Hne Hv. unfold main.set_mode.
  apply String.eqb_neq in Hne. rewrite Hne. cbn [negb].
  erewrite bind_step by (apply set_mode_valid; exact Hv). reflexivity.
Qed.

Lemma skull_set_mode_invalid (m : string) (s : Skull) (w : World) :
  m <> main.current_mode s -> ~ valid_mode m ->
  main.set_mode m s w
  = Ok (main.set_eye_controller (main.eye_controller s)
          (main.set_current_mode m s),
        printed ("Mode changed to: " ++ m) (printed ("Invalid mode: " ++ m) w)).
Proof.
  intros Hne Hv. unfold main.set_mode.
  apply String.eqb_neq in Hne. rewrite Hne. cbn [negb].
  erewrite bind_step by (apply set_mode_invalid; exact Hv). reflexivity.
Qed.

Lemma skull_set_mode_sync (m : string) (s : Skull) (w : World) :
  valid_mode m -> main.in_sync s ->
  exists s' w', main.set_mode m s w = Ok (s', w') /\
                main.in_sync s' /\ main.current_mode s' = m.
Proof.
  intros Hv Hs. destruct (String.eqb_spec m (main.current_mode s)) as [He|Hne].
  - exists s, w. split; [apply skull_set_mode_same; exact He|]. split; [exact Hs|congruence].
  - eexists _, _. split; [apply skull_set_mode_valid; assumption|].
    split; reflexivity.
Qed.

Lemma skull_set_modes_sync (ms : list string) (s : Skull) (w : World) :
  Forall valid_mode ms -> main.in_sync s ->
  exists s' w', main.set_modes ms s w = Ok (s', w') /\
                main.in_sync s' /\ main.current_mode s' = last ms (main.current_mode s).
Proof.
  intros Hms. revert s w. induction Hms as [|m ms Hm _ IH]; intros s w Hs.
  - exists s, w. split; [reflexivity|]. split; [exact Hs|reflexivity].
  - destruct (skull_set_mode_sync m s w Hm Hs) as (s1 & w1 & H1 & Hs1 & Hc1).
    destruct (IH s1 w1 Hs1) as (s' & w' & H & Hs' & Hc').
    exists s', w'. split; [|split; [exact Hs'|]].
    + cbn [main.set_modes]. rewrite (bind_step _ _ _ _ _ H1). exact H.
    + rewrite Hc', Hc1. destruct ms as [|m0 ms]; [reflexivity|].
      change (last (m :: m0 :: ms) (main.current_mode s))
        with (last (m0 :: ms) (main.current_mode s)).
      apply last_cons_default.
Qed.

End SkullFacts.

(** X12: [SkullController.set_mode] keeps the skull's [current_mode] equal
    to the mode of its eye controller as long as the modes asked for are
    valid: after any sequence of valid modes both are the last mode asked
    for.  A mode that is not valid and differs from the current one is
    stored in [current_mode] while the eye controller keeps its mode, so the
    two then differ; asking for the current mode does nothing at all. *)
Theorem skull_mode_in_sync :
  forall (F : Type) (PF : PyFloat F) (FaceTracker AudioManager LEDController : Type)
         (s : @main.SkullController F FaceTracker AudioManager LEDController) (w : World),
    main.in_sync s ->
    (forall ms : list string,
        Forall valid_mode ms ->
        exists s' w',
          main.set_modes ms s w = Ok (s', w') /\
          main.current_mode s' = last ms (main.current_mode s) /\
          mode (main.eye_controller s') = last ms (main.current_mode s)) /\
    (forall m : string,
        ~ valid_mode m -> m <> main.current_mode s ->
        exists s' w',
          main.set_mode m s w = Ok (s', w') /\
          main.current_mode s' = m /\
          main.eye_controller s' = main.eye_controller s /\
          ~ main.in_sync s') /\
    main.set_mode (main.current_mode s) s w = Ok (s, w).
Proof.
  intros F PF FT AM LED s w Hs. split; [|split].
  - intros ms Hms.
    destruct (skull_set_modes_sync ms s w Hms Hs) as (s' & w' & H & Hs' & Hc).
    exists s', w'. split; [exact H|]. split; [exact Hc|].
    unfold main.in_sync in Hs'. congruence.
  - intros m Hv Hne. eexists _, _.
    split; [apply skull_set_mode_invalid; assumption|].
    split; [reflexivity|]. split; [reflexivity|].
    unfold main.in_sync in *. cbn. congruence.
  - apply skull_set_mode_same. reflexivity.
Qed.

Lemma skull_mode_in_sync_witness :
  (exists s' w',
      main.set_modes ["rest"; "rest"; "wandering"] bare_skull tape0 = Ok (s', w') /\
      main.current_mode s' = "wandering" /\ mode (main.eye_controller s') = "wandering") /\
  (exists s' w',
      main.set_mode "sleeping" bare_skull tape0 = Ok (s', w') /\
      main.current_mode s' = "sleeping" /\
      main.eye_controller s' = bare_controller /\ ~ main.in_sync s').
Proof.
  destruct (skull_mode_in_sync float binary64 unit unit unit bare_skull tape0 eq_refl)
    as (Hvalid & Hinvalid & _).
  split.
  - apply (Hvalid ["rest"; "rest"; "wandering"]).
    constructor; [right; right; reflexivity|].
    constructor; [right; right; reflexivity|].
    constructor; [right; left; reflexivity|constructor].
  - apply (Hinvalid "sleeping").
    + unfold valid_mode. intros [H|[H|H]]; discriminate H.
    + discriminate.
Defined.

(** ** The synchronized blink *)

Section Firing.
Context {F : Type} {PF : PyFloat F}.

Lemma update_blink_just_started (now duration : Z) (e e' : Eye F) (w w' : World) :
  0 < duration ->
  update_blink now e w = Ok (e', w') ->
  closing_since now duration e -> closing_since now duration e'.
Proof.
  intros Hd H (Hs & Ht & Hdur).
  rewrite (update_blink_closing now e w Hs) in H by lia.
  apply Ok_inj in H. destruct H as [<- _]. repeat split; assumption.
Qed.

Lemma handle_blinks_fires (now : Z) (c : EyeController F) (w : World) :
  int_geb now (next_blink_time c) = true -> blink_fires now c w.
Proof.
  intros Hdue.
  pose proof (handle_blinks_due now c w Hdue) as Hrun. cbv zeta in Hrun.
  assert (Hd : randint BLINK_MIN_DURATION BLINK_MAX_DURATION w
               = Ok (BLINK_MIN_DURATION
                     + tape w (cursor w) mod (BLINK_MAX_DURATION - BLINK_MIN_DURATION + 1),
                     advance w))
    by (apply randint_Ok; unfold BLINK_MIN_DURATION, BLINK_MAX_DURATION; lia).
  assert (Hk : randint BLINK_INTERVAL_MIN (BLINK_INTERVAL_MIN * 2) (advance w)
               = Ok (BLINK_INTERVAL_MIN
                     + tape (advance w) (cursor (advance w))
                       mod (BLINK_INTERVAL_MIN * 2 - BLINK_INTERVAL_MIN + 1),
                     advance (advance w)))
    by (apply randint_Ok; unfold BLINK_INTERVAL_MIN; lia).
  destruct (randint_range _ _ _ _ _ Hd) as [Hdr _].
  destruct (randint_range _ _ _ _ _ Hk) as [Hkr _].
  set (duration := BLINK_MIN_DURATION
         + tape w (cursor w) mod (BLINK_MAX_DURATION - BLINK_MIN_DURATION + 1)) in *.
  set (k := BLINK_INTERVAL_MIN
         + tape (advance w) (cursor (advance w))
           mod (BLINK_INTERVAL_MIN * 2 - BLINK_INTERVAL_MIN + 1)) in *.
  assert (Hpos : 0 < duration) by (unfold BLINK_MIN_DURATION in Hdr; lia).
  assert (Hstarted :
    eyes_rel (fun e e1 =>
                (blink_state e = NOBLINK -> closing_since now duration e1) /\
                (blink_state e <> NOBLINK -> e1 = e))
             (eyes c)
             (map (fun '(key, eye) => (key, start_blink now duration eye)) (eyes c))).
  { apply eyes_rel_map. intros e. split.
    - intros He. rewrite (start_blink_open _ _ _ He). repeat split.
    - intros He. apply start_blink_busy. exact He. }
  unfold blink_fires.
  eexists duration, k, (advance w), (advance (advance w)), _.
  split; [exact Hd|]. split; [exact Hdr|]. split; [exact Hk|]. split; [lia|].
  split; [exact Hrun|]. split; [reflexivity|].
  split; [exact Hstarted|].
  split; [reflexivity|]. split; [reflexivity|]. split; [reflexivity|].
  split; [reflexivity|].
  split; [|split; [|split]].
  - intros face. unfold update. rewrite (bind_step _ _ _ _ _ Hrun). reflexivity.
  - intros face c' w' H. unfold update in H. rewrite (bind_step _ _ _ _ _ Hrun) in H.
    inv_bind H. rename a into c2.
    destruct (update_blink_animation_next _ _ _ _ _ Hstep) as [Hn1 _].
    destruct (update_positions_next _ _ _ _ _ _ H) as [Hn2 _].
    split; [rewrite Hn2, Hn1; reflexivity|].
    apply eyes_rel_trans
      with (P := fun e e1 => blink_state e = NOBLINK -> closing_since now duration e1)
           (Q := fun e1 e' => closing_since now duration e1 -> closing_since now duration e')
           (d2 := map (fun '(key, eye) => (key, start_blink now duration eye)) (eyes c)).
    + intros e e1 e' H1 H2 He. apply H2. apply H1. exact He.
    + eapply eyes_rel_weaken; [|exact Hstarted]. intros e e1 [H1 _]. exact H1.
    + apply eyes_rel_trans
        with (P := fun e1 e2 => closing_since now duration e1 -> closing_since now duration e2)
             (Q := fun e2 e' => closing_since now duration e2 -> closing_since now duration e')
             (d2 := eyes c2).
      * intros e1 e2 e3 H1 H2 He. auto.
      * apply (update_blink_animation_rel _ _ _ _ _ _
                 (fun e e' wa wb He => update_blink_just_started now duration e e' wa wb
                                         Hpos He) Hstep).
      * eapply update_positions_rel; [| | | | |exact H].
        -- intros e He. exact He.
        -- intros e1 e2 e3 H1 H2 He. auto.
        -- intros e e' wa wb He (Hs & Ht & Hdur).
           destruct (update_autonomous_others _ _ _ _ _ He) as [(Hb1 & Hb2 & Hb3 & _) _].
           unfold closing_since. rewrite Hb1, Hb2, Hb3. repeat split; assumption.
        -- intros tx ty e He. exact He.
        -- intros _ e He. exact He.
  - intros e He. rewrite (start_blink_open _ _ _ He). repeat split.
  - intros e He. apply start_blink_busy. exact He.
Qed.

Lemma handle_blinks_quiet (now : Z) (c : EyeController F) (w : World) :
  int_geb now (next_blink_time c) = false -> handle_blinks now c w = Ok (c, w).
Proof. intros Hq. unfold handle_blinks. rewrite Hq. reflexivity. Qed.

End Firing.

(** C7: on every controller tick with [now >= next_blink_time] (the next
    blink time being an int [n <= now], or a float [x <= now] over the
    reals or by the comparison of doubles) the scheduler draws one duration
    by [randint] on [BLINK_MIN_DURATION, BLINK_MAX_DURATION] and calls
    [start_blink] with that [now] and that duration on every eye: the eyes
    of the controller are afterwards the same eyes under the same keys with
    [start_blink now duration] applied, so an open eye is closing from [now]
    for that duration and an eye in mid-blink is unchanged.  The next blink
    time becomes [now + duration * 3 + k], [k] drawn by [randint] on
    [BLINK_INTERVAL_MIN, 2 * BLINK_INTERVAL_MIN].  The rest of the tick runs
    on that controller, and when the tick returns the next blink time is
    that one and every eye that was open is closing from [now] for that
    duration.  When [now < next_blink_time] the scheduler draws nothing and
    changes nothing. *)
Theorem synchronized_blink :
  (forall (F : Type) (PF : PyFloat F) (now : Z) (c : EyeController F) (w : World),
      int_geb now (next_blink_time c) = true -> blink_fires now c w) /\
  (forall (F : Type) (PF : PyFloat F) (now n : Z) (c : EyeController F) (w : World),
      next_blink_time c = Int n -> n <= now -> blink_fires now c w) /\
  (forall (now : Z) (x : R) (c : EyeController R) (w : World),
      next_blink_time c = Float x -> (x <= IZR now)%R -> blink_fires now c w) /\
  (forall (now : Z) (x : float) (c : EyeController float) (w : World),
      next_blink_time c = Float x -> PrimFloat.leb x (of_int now) = true ->
      blink_fires now c w) /\
  (forall (F : Type) (PF : PyFloat F) (now n : Z) (c : EyeController F) (w : World),
      next_blink_time c = Int n -> now < n -> handle_blinks now c w = Ok (c, w)) /\
  (forall (now : Z) (x : R) (c : EyeController R) (w : World),
      next_blink_time c = Float x -> (IZR now < x)%R -> handle_blinks now c w = Ok (c, w)).
Proof.
  split; [|split; [|split; [|split; [|split]]]].
  - intros F PF now c w Hdue. apply handle_blinks_fires. exact Hdue.
  - intros F PF now n c w Hn Hle. apply handle_blinks_fires. rewrite Hn.
    cbn [int_geb]. apply Z.leb_le. exact Hle.
  - intros now x c w Hx Hle. apply handle_blinks_fires. rewrite Hx.
    cbn [int_geb fleb real of_int]. destruct (Rle_dec x (IZR now)); [reflexivity|].
    contradiction.
  - intros now x c w Hx Hle. apply handle_blinks_fires. rewrite Hx. exact Hle.
  - intros F PF now n c w Hn Hlt. apply handle_blinks_quiet. rewrite Hn.
    cbn [int_geb]. apply Z.leb_gt. exact Hlt.
  - intros now x c w Hx Hlt. apply handle_blinks_quiet. rewrite Hx.
    cbn [int_geb fleb real of_int]. destruct (Rle_dec x (IZR now)); [|reflexivity].
    exfalso. apply (Rlt_irrefl x). eapply Rle_lt_trans; eassumption.
Qed.

(** C7 on the fresh controller, ten seconds in, in double precision: the
    three eyes, all open, are closing from that tick for the drawn duration
    when the tick returns. *)
Lemma synchronized_blink_witness :
  exists (c c' : EyeController float) (w w' : World) (duration k : Z),
    controller0 tape0 = Ok (c, w) /\
    update 10000000 None c w = Ok (c', w') /\
    36000 <= duration <= 72000 /\ 4000000 <= k <= 8000000 /\
    next_blink_time c' = Int (10000000 + duration * 3 + k) /\
    all_eyes (fun e => blink_state e = ENBLINK /\ blink_start_time e = 10000000 /\
                       blink_duration e = duration) (eyes c').
Proof.
  destruct (controller0 (F := float) tape0) as [[c w]|] eqn:Hc;
    [|vm_compute in Hc; discriminate Hc].
  destruct (update 10000000 None c w) as [[c' w']|] eqn:Hrun.
  - assert (Hdue : int_geb 10000000 (next_blink_time c) = true).
    { vm_compute in Hc. apply Ok_inj in Hc. destruct Hc as [<- _]. reflexivity. }
    assert (Hopen : all_eyes (fun e => blink_state e = NOBLINK) (eyes c)).
    { vm_compute in Hc. apply Ok_inj in Hc. destruct Hc as [<- _].
      constructor; [reflexivity|]. constructor; [reflexivity|].
      constructor; [reflexivity|constructor]. }
    destruct (proj1 synchronized_blink float binary64 10000000 c w Hdue)
      as (duration & k & w1 & w2 & c1 & _ & Hd & _ & Hk & _ & _ & _ & _ & _ & _ & _ & _
          & Hend & _).
    destruct (Hend None c' w' Hrun) as [Hnext Hrel].
    exists c, c', w, w', duration, k.
    split; [reflexivity|]. split; [exact Hrun|]. split; [exact Hd|]. split; [exact Hk|].
    split; [exact Hnext|].
    eapply eyes_rel_all; [exact Hrel|exact Hopen].
  - exfalso. vm_compute in Hc. apply Ok_inj in Hc. destruct Hc as [<- <-].
    vm_compute in Hrun. discriminate Hrun.
Defined.
